(** * Autowhisker: the queue processor of [src/App.tsx]

    A shallow embedding of the queue, the run state and the control
    handlers of the React component [App], followed by the properties of
    the job queue that hold (or fail) on that code.

    Modelling conventions.
    - A JavaScript string is a [string] of 8-bit code units.
    - [crypto.randomUUID()] draws from a supply of fresh identifiers: the
      n-th draw of a session is the number n.
    - React state ([queue], [isProcessing], [isPaused], ...) and the two
      refs ([processingRef], [pausedRef]) are fields of one [World].
      A state setter called with an updater function is applied to the
      latest value of the state, in call order.
    - Every [setTimeout] callback and every continuation of an [await] is a
      [Task] that waits in the world until the environment runs it.
    - After each handler or continuation React commits: the two
      [useEffect]s that mirror [isProcessing] and [isPaused] into the refs
      run when their dependency changed. *)

From Stdlib Require Import List String Ascii Bool Arith Lia.
From Stdlib Require Import DecimalString DecimalNat Permutation Sorted.
Import ListNotations.
Local Open Scope string_scope.
Local Open Scope list_scope.

(* ================================================================== *)
(** ** JavaScript string helpers used by [handleStart] *)

Module JsString.

(** White space and line terminators of ECMAScript that fit a code unit
    below 256: TAB, LF, VT, FF, CR, SP and NBSP. *)
Definition isWhiteSpace (c : ascii) : bool :=
  let n := nat_of_ascii c in
  Nat.eqb n 9 || Nat.eqb n 10 || Nat.eqb n 11 || Nat.eqb n 12
  || Nat.eqb n 13 || Nat.eqb n 32 || Nat.eqb n 160.

Fixpoint trimStart (s : string) : string :=
  match s with
  | EmptyString => EmptyString
  | String c r => if isWhiteSpace c then trimStart r else s
  end.

Fixpoint trimEnd (s : string) : string :=
  match s with
  | EmptyString => EmptyString
  | String c r =>
      match trimEnd r with
      | EmptyString => if isWhiteSpace c then EmptyString else String c EmptyString
      | r' => String c r'
      end
  end.

(** [s.trim()] *)
Definition trim (s : string) : string := trimEnd (trimStart s).

Definition newline : ascii := ascii_of_nat 10.

(** [s.split('\n')]: never empty, [''.split('\n')] is [['']]. *)
Fixpoint splitLines (s : string) : list string :=
  match s with
  | EmptyString => [EmptyString]
  | String c r =>
      if Ascii.eqb c newline then EmptyString :: splitLines r
      else match splitLines r with
           | [] => [String c EmptyString]
           | l :: ls => String c l :: ls
           end
  end.

(** Truthiness of a string: [''] is falsy. *)
Definition truthy (s : string) : bool :=
  match s with EmptyString => false | _ => true end.

(** [a || b] on a possibly undefined string. *)
Definition orElse (a : option string) (b : string) : string :=
  match a with
  | Some s => if truthy s then s else b
  | None => b
  end.

End JsString.

(* ================================================================== *)
(** ** Data model *)

(** [QueueItem['status']] *)
Inductive Status : Type :=
| pending | processing | done | error | paused.

Definition Status_eqb (a b : Status) : bool :=
  match a, b with
  | pending, pending | processing, processing | done, done
  | error, error | paused, paused => true
  | _, _ => false
  end.

(** [interface QueueItem] *)
Record QueueItem : Type := mkItem {
  id : nat;
  prompt : string;
  status : Status;
  imageUrl : option string;
  errorMsg : option string;
  timestamp : string;
  isEditing : option bool
}.

(** Object spreads [{ ...item, field: v }]. *)
Definition withStatus (s : Status) (i : QueueItem) : QueueItem :=
  mkItem (id i) (prompt i) s (imageUrl i) (errorMsg i) (timestamp i) (isEditing i).
Definition withImageUrl (u : option string) (i : QueueItem) : QueueItem :=
  mkItem (id i) (prompt i) (status i) u (errorMsg i) (timestamp i) (isEditing i).
Definition withErrorMsg (e : option string) (i : QueueItem) : QueueItem :=
  mkItem (id i) (prompt i) (status i) (imageUrl i) e (timestamp i) (isEditing i).
Definition withPrompt (p : string) (i : QueueItem) : QueueItem :=
  mkItem (id i) p (status i) (imageUrl i) (errorMsg i) (timestamp i) (isEditing i).
Definition withEditing (b : bool) (i : QueueItem) : QueueItem :=
  mkItem (id i) (prompt i) (status i) (imageUrl i) (errorMsg i) (timestamp i) (Some b).

Definition isPending (i : QueueItem) : bool := Status_eqb (status i) pending.
Definition isProcessingItem (i : QueueItem) : bool := Status_eqb (status i) processing.
Definition isDone (i : QueueItem) : bool := Status_eqb (status i) done.
Definition isError (i : QueueItem) : bool := Status_eqb (status i) error.

(** What the external services answer. *)

(** [await fetch('/api/generate')] followed by [res.json()]: either a JSON
    body, of which the code reads [success], [result?.url] and [error], or
    an exception with its [message]. *)
Inductive GenOutcome : Type :=
| GenJson (success : bool) (url : option string) (err : option string)
| GenThrow (message : option string).

(** An entry of the listing [GET /api/images] (newest first). *)
Record ImageInfo : Type := mkImage { url : string; name : string }.

Inductive ListOutcome : Type :=
| ListJson (files : list ImageInfo)
| ListThrow.

(** [DELETE /api/images]: the [success] field of the body, or an exception. *)
Inductive DelOutcome : Type :=
| DelJson (success : bool)
| DelThrow.

(** A suspended computation: a timer callback or the rest of an async
    function after an [await]. *)
Inductive Task : Type :=
| StartTimer                       (* [setTimeout(..., 100)] of [handleStart] *)
| RetryTimer                       (* [setTimeout(..., 100)] of the two retries *)
| NextItem (o : option QueueItem)  (* [await new Promise(...)] of [processNext] *)
| Generating (item : QueueItem)    (* [await fetch('/api/generate')] *)
| Linking (itemId : nat)           (* [await fetch('/api/images')] of [fetchLatestImageFor] *)
| DelayTimer                       (* [setTimeout(processNext, 2000)] *)
| Deleting.                        (* [await fetch('/api/images', DELETE)] *)

(** What a task is resumed with. *)
Inductive Reply : Type :=
| Elapsed
| Generated (g : GenOutcome)
| Listed (l : ListOutcome)
| Deleted (d : DelOutcome).

(** The component's state, its refs and its outstanding tasks. *)
Record World : Type := mkWorld {
  cookie : string;
  promptsInput : string;
  queue : list QueueItem;
  isProcessing : bool;
  isPaused : bool;
  processingRef : bool;
  pausedRef : bool;
  tasks : list Task;
  uuids : nat;           (* identifiers drawn so far *)
  alerts : list string   (* messages shown with [alert], oldest first *)
}.

Definition setQueue (f : list QueueItem -> list QueueItem) (w : World) : World :=
  mkWorld (cookie w) (promptsInput w) (f (queue w)) (isProcessing w) (isPaused w)
          (processingRef w) (pausedRef w) (tasks w) (uuids w) (alerts w).
Definition setCookie (c : string) (w : World) : World :=
  mkWorld c (promptsInput w) (queue w) (isProcessing w) (isPaused w)
          (processingRef w) (pausedRef w) (tasks w) (uuids w) (alerts w).
Definition setPromptsInput (s : string) (w : World) : World :=
  mkWorld (cookie w) s (queue w) (isProcessing w) (isPaused w)
          (processingRef w) (pausedRef w) (tasks w) (uuids w) (alerts w).
Definition setIsProcessing (b : bool) (w : World) : World :=
  mkWorld (cookie w) (promptsInput w) (queue w) b (isPaused w)
          (processingRef w) (pausedRef w) (tasks w) (uuids w) (alerts w).
Definition setIsPaused (b : bool) (w : World) : World :=
  mkWorld (cookie w) (promptsInput w) (queue w) (isProcessing w) b
          (processingRef w) (pausedRef w) (tasks w) (uuids w) (alerts w).
Definition setProcessingRef (b : bool) (w : World) : World :=
  mkWorld (cookie w) (promptsInput w) (queue w) (isProcessing w) (isPaused w)
          b (pausedRef w) (tasks w) (uuids w) (alerts w).
Definition setPausedRef (b : bool) (w : World) : World :=
  mkWorld (cookie w) (promptsInput w) (queue w) (isProcessing w) (isPaused w)
          (processingRef w) b (tasks w) (uuids w) (alerts w).
Definition setTasks (f : list Task -> list Task) (w : World) : World :=
  mkWorld (cookie w) (promptsInput w) (queue w) (isProcessing w) (isPaused w)
          (processingRef w) (pausedRef w) (f (tasks w)) (uuids w) (alerts w).
Definition setUuids (n : nat) (w : World) : World :=
  mkWorld (cookie w) (promptsInput w) (queue w) (isProcessing w) (isPaused w)
          (processingRef w) (pausedRef w) (tasks w) n (alerts w).
Definition alert (msg : string) (w : World) : World :=
  mkWorld (cookie w) (promptsInput w) (queue w) (isProcessing w) (isPaused w)
          (processingRef w) (pausedRef w) (tasks w) (uuids w) (alerts w ++ [msg]).

(** [setTimeout] and [await]: the task joins the outstanding ones. *)
Definition spawn (t : Task) (w : World) : World :=
  setTasks (fun ts => ts ++ [t]) w.

(** The component as mounted: [useState] and [useRef] initial values, for a
    cookie restored from [localStorage]. *)
Definition mount (savedCookie : string) : World :=
  mkWorld savedCookie EmptyString [] false false false false [] 0 [].

(* ================================================================== *)
(** ** The queue updaters (arguments of [setQueue] in the source) *)

Module Updater.

(** [processNext]: mark the claimed record. *)
Definition claim (p : QueueItem) (prevQueue : list QueueItem) : list QueueItem :=
  map (fun item => if Nat.eqb (id item) (id p) then withStatus processing item else item)
      prevQueue.

(** [processNext]: write the outcome of a generation that returned JSON. *)
Definition settle (nextItem : QueueItem) (success : bool)
           (resultUrl err : option string) (prev : list QueueItem) : list QueueItem :=
  map (fun item =>
         if Nat.eqb (id item) (id nextItem) then
           if success
           then withImageUrl (Some (JsString.orElse resultUrl "check_gallery"))
                             (withStatus done item)
           else withErrorMsg err (withStatus error item)
         else item) prev.

(** [processNext], [catch] branch. *)
Definition fail (nextItem : QueueItem) (message : option string)
           (prev : list QueueItem) : list QueueItem :=
  map (fun item =>
         if Nat.eqb (id item) (id nextItem)
         then withErrorMsg (Some (JsString.orElse message "Network Error"))
                           (withStatus error item)
         else item) prev.

(** [fetchLatestImageFor] *)
Definition link (itemId : nat) (latestInfo : ImageInfo)
           (prev : list QueueItem) : list QueueItem :=
  map (fun item =>
         if Nat.eqb (id item) itemId && isDone item
         then withImageUrl (Some (url latestInfo)) item
         else item) prev.

(** [retrySingleItem] *)
Definition retryOne (itemId : nat) (prev : list QueueItem) : list QueueItem :=
  map (fun item =>
         if Nat.eqb (id item) itemId
         then withErrorMsg None (withStatus pending item)
         else item) prev.

(** [retryAllErrors] *)
Definition retryAll (prev : list QueueItem) : list QueueItem :=
  map (fun item =>
         if isError item
         then withErrorMsg None (withStatus pending item)
         else item) prev.

(** [startEditingPrompt], [cancelEditingPrompt] *)
Definition editing (b : bool) (itemId : nat) (prev : list QueueItem) : list QueueItem :=
  map (fun item => if Nat.eqb (id item) itemId then withEditing b item else item) prev.

(** [savePromptEdit] *)
Definition saveEdit (itemId : nat) (newPrompt : string)
           (prev : list QueueItem) : list QueueItem :=
  map (fun item =>
         if Nat.eqb (id item) itemId
         then withEditing false (withPrompt newPrompt item)
         else item) prev.

(** [handleClearAll], first [setQueue]. *)
Definition forgetImages (prev : list QueueItem) : list QueueItem :=
  map (fun item =>
         withStatus (if isDone item then pending else status item)
                    (withImageUrl None item)) prev.

(** [handleClearAll], second [setQueue]. *)
Definition dropDone (prev : list QueueItem) : list QueueItem :=
  filter (fun item => negb (isDone item)) prev.

End Updater.

(* ================================================================== *)
(** ** The processing loop *)

(** [processNext], up to its first [await]. *)
Definition processNext (w : World) : World :=
  if negb (processingRef w) then w
  else if pausedRef w then w
  else match find isPending (queue w) with
       | Some p => spawn (NextItem (Some p)) (setQueue (Updater.claim p) w)
       | None => spawn (NextItem None) w
       end.

(** [processQueue] *)
Definition processQueue (w : World) : World := processNext w.

(** [processNext] after [nextItem] is known, up to the [fetch]. *)
Definition afterNextItem (nextItem : option QueueItem) (w : World) : World :=
  match nextItem with
  | None => setIsProcessing false w
  | Some item => spawn (Generating item) w
  end.

(** [fetchLatestImageFor], up to its [fetch]. *)
Definition fetchLatestImageFor (itemId : nat) (w : World) : World :=
  spawn (Linking itemId) w.

(** [processNext], end of the function: the delay before the next job. *)
Definition scheduleNext (w : World) : World := spawn DelayTimer w.

(** [processNext] after the generation call returned or threw. *)
Definition afterGenerate (nextItem : QueueItem) (g : GenOutcome) (w : World) : World :=
  match g with
  | GenJson success resultUrl err =>
      let w1 := setQueue (Updater.settle nextItem success resultUrl err) w in
      if success then fetchLatestImageFor (id nextItem) w1
      else scheduleNext w1
  | GenThrow message =>
      scheduleNext (setQueue (Updater.fail nextItem message) w)
  end.

(** [fetchLatestImageFor] after the listing returned or threw, then the
    rest of [processNext]. *)
Definition afterListing (itemId : nat) (l : ListOutcome) (w : World) : World :=
  match l with
  | ListJson (latestInfo :: _) =>
      scheduleNext (setQueue (Updater.link itemId latestInfo) w)
  | ListJson [] => scheduleNext w
  | ListThrow => scheduleNext w
  end.

(* ================================================================== *)
(** ** The control handlers *)

(** The records [handleStart] builds from the non-blank lines. *)
Fixpoint newItems (now : string) (next : nat) (lines : list string) : list QueueItem :=
  match lines with
  | [] => []
  | line :: rest =>
      mkItem next (JsString.trim line) pending None None now None
      :: newItems now (S next) rest
  end.

(** [promptsInput.split('\n').filter(line => line.trim().length > 0)] *)
Definition promptLines (input : string) : list string :=
  filter (fun line => Nat.ltb 0 (String.length (JsString.trim line)))
         (JsString.splitLines input).

(** [handleStart]; [now] is [new Date().toLocaleTimeString()]. *)
Definition handleStart (now : string) (w : World) : World :=
  if negb (JsString.truthy (cookie w))
  then alert "Please enter your Whisk Cookie first!" w
  else
    let lines := promptLines (promptsInput w) in
    let hasPending := existsb isPending (queue w) in
    if Nat.eqb (List.length lines) 0 && negb hasPending
    then alert "Please enter prompts in the list!" w
    else
      let w1 :=
        if Nat.ltb 0 (List.length lines)
        then setPromptsInput EmptyString
               (setUuids (uuids w + List.length lines)
                  (setQueue (fun prev => prev ++ newItems now (uuids w) lines) w))
        else w in
      spawn StartTimer (setPausedRef false (setIsPaused false w1)).

(** The timer of [handleStart]. *)
Definition startTimer (w : World) : World :=
  if negb (processingRef w)
  then processQueue (setProcessingRef true (setIsProcessing true w))
  else w.

(** [handlePause] *)
Definition handlePause (w : World) : World :=
  setIsProcessing false (setIsPaused true w).

(** [handleStop] *)
Definition handleStop (w : World) : World :=
  setProcessingRef false (setIsPaused false (setIsProcessing false w)).

(** [startEditingPrompt], [savePromptEdit], [cancelEditingPrompt] *)
Definition startEditingPrompt (itemId : nat) (w : World) : World :=
  setQueue (Updater.editing true itemId) w.
Definition savePromptEdit (itemId : nat) (newPrompt : string) (w : World) : World :=
  setQueue (Updater.saveEdit itemId newPrompt) w.
Definition cancelEditingPrompt (itemId : nat) (w : World) : World :=
  setQueue (Updater.editing false itemId) w.

(** The timer of [retrySingleItem] and [retryAllErrors]. *)
Definition retryTimer (w : World) : World :=
  processQueue (setProcessingRef true (setIsProcessing true w)).

(** [retrySingleItem] *)
Definition retrySingleItem (itemId : nat) (w : World) : World :=
  let w1 := setQueue (Updater.retryOne itemId) w in
  if negb (processingRef w) then spawn RetryTimer w1 else w1.

(** [retryAllErrors] *)
Definition retryAllErrors (w : World) : World :=
  let w1 := setQueue Updater.retryAll w in
  if negb (processingRef w) then spawn RetryTimer w1 else w1.

(** [handleClearAll], up to the [fetch]; [confirmed] is what [confirm]
    returned. *)
Definition handleClearAll (confirmed : bool) (w : World) : World :=
  if negb confirmed then w else spawn Deleting w.

(** [handleClearAll] after the deletion returned or threw. *)
Definition afterDelete (d : DelOutcome) (w : World) : World :=
  match d with
  | DelJson true => setQueue Updater.dropDone (setQueue Updater.forgetImages w)
  | DelJson false => w
  | DelThrow => alert "Failed to clear images" w
  end.

(* ================================================================== *)
(** ** Events, commits and runs *)

(** What can happen to the mounted component: the user acts on a control
    of the rendered page, or the environment resumes an outstanding task. *)
Inductive Event : Type :=
| TypeCookie (s : string)              (* the cookie text area *)
| TypePrompts (s : string)             (* the prompts text area *)
| Start (now : string)                 (* START NOW *)
| Pause                                (* PAUSE *)
| Stop                                 (* STOP *)
| RetryOne (itemId : nat)              (* the Retry button of a row *)
| RetryAll                             (* Retry All Errors *)
| StartEdit (itemId : nat)             (* click on a prompt, or the Edit button *)
| SaveEdit (itemId : nat) (newPrompt : string)
| CancelEdit (itemId : nat)
| ClearAll (confirmed : bool)          (* Clear All *)
| Fire (k : nat) (r : Reply).          (* the k-th outstanding task resumes *)

(** The effects [useEffect(..., [isProcessing])] and
    [useEffect(..., [isPaused])]: each runs when its dependency differs
    from the previous render. *)
Definition commit (before after : World) : World :=
  let w1 := if Bool.eqb (isProcessing before) (isProcessing after) then after
            else setProcessingRef (isProcessing after) after in
  if Bool.eqb (isPaused before) (isPaused w1) then w1
  else setPausedRef (isPaused w1) w1.

(** The rows that render a control, as in the JSX of the list. *)
Definition showsRetry (itemId : nat) (q : list QueueItem) : bool :=
  existsb (fun item => Nat.eqb (id item) itemId && isError item) q.
Definition showsEdit (itemId : nat) (q : list QueueItem) : bool :=
  existsb (fun item => Nat.eqb (id item) itemId && (isError item || isPending item)) q.
Definition showsEditor (itemId : nat) (q : list QueueItem) : bool :=
  existsb (fun item => Nat.eqb (id item) itemId
                       && match isEditing item with Some true => true | _ => false end) q.

(** Resuming a task with the reply it waits for; [None] when the reply is
    not of the kind the task awaits. *)
Definition resume (t : Task) (r : Reply) (w : World) : option World :=
  match t, r with
  | StartTimer, Elapsed => Some (startTimer w)
  | RetryTimer, Elapsed => Some (retryTimer w)
  | NextItem o, Elapsed => Some (afterNextItem o w)
  | Generating item, Generated g => Some (afterGenerate item g w)
  | Linking itemId, Listed l => Some (afterListing itemId l w)
  | DelayTimer, Elapsed => Some (processNext w)
  | Deleting, Deleted d => Some (afterDelete d w)
  | _, _ => None
  end.

Definition removeNth {A : Type} (k : nat) (l : list A) : list A :=
  firstn k l ++ skipn (S k) l.

(** The handler of an event, before the commit.  An event on a control the
    page does not render, or on a task that is not outstanding, does
    nothing. *)
Definition handle (e : Event) (w : World) : World :=
  match e with
  | TypeCookie s => setCookie s w
  | TypePrompts s => setPromptsInput s w
  | Start now => handleStart now w
  | Pause => handlePause w
  | Stop => handleStop w
  | RetryOne itemId =>
      if showsRetry itemId (queue w) then retrySingleItem itemId w else w
  | RetryAll => retryAllErrors w
  | StartEdit itemId =>
      if showsEdit itemId (queue w) then startEditingPrompt itemId w else w
  | SaveEdit itemId newPrompt =>
      if showsEditor itemId (queue w) then savePromptEdit itemId newPrompt w else w
  | CancelEdit itemId =>
      if showsEditor itemId (queue w) then cancelEditingPrompt itemId w else w
  | ClearAll confirmed => handleClearAll confirmed w
  | Fire k r =>
      match nth_error (tasks w) k with
      | Some t =>
          match resume t r (setTasks (removeNth k) w) with
          | Some w' => w'
          | None => w
          end
      | None => w
      end
  end.

Definition step (e : Event) (w : World) : World := commit w (handle e w).

Definition run (es : list Event) (w : World) : World :=
  fold_left (fun acc e => step e acc) es w.

(** The external services as functions of the time (the number of tasks
    resumed so far) and of the request. *)
Record Services : Type := mkServices {
  generate : nat -> QueueItem -> GenOutcome;
  listImages : nat -> ListOutcome;
  deleteImages : nat -> DelOutcome
}.

Definition answer (env : Services) (time : nat) (t : Task) : Reply :=
  match t with
  | Generating item => Generated (generate env time item)
  | Linking _ => Listed (listImages env time)
  | Deleting => Deleted (deleteImages env time)
  | StartTimer | RetryTimer | NextItem _ | DelayTimer => Elapsed
  end.

(** Let the outstanding tasks run, oldest first, with no user action in
    between, until none is left or [fuel] tasks have run. *)
Fixpoint drain (fuel : nat) (env : Services) (time : nat) (w : World) : World :=
  match fuel with
  | 0 => w
  | S fuel' =>
      match tasks w with
      | [] => w
      | t :: _ => drain fuel' env (S time) (step (Fire 0 (answer env time t)) w)
      end
  end.

(** Counting. *)
Definition countStatus (s : Status) (q : list QueueItem) : nat :=
  List.length (filter (fun item => Status_eqb (status item) s) q).

(** The refs mirror the state, as they do after every commit. *)
Definition synced (w : World) : Prop :=
  processingRef w = isProcessing w /\ pausedRef w = isPaused w.

(** A record after some steps compared with the same record before: it
    kept its id and was not claimed in between. *)
Definition notClaimed (before after : QueueItem) : Prop :=
  id after = id before
  /\ (status after = processing -> status before = processing).

(** A record after the completion of the generation of [x], compared with
    the record before: with the id of [x] it is resolved, otherwise it is
    untouched. *)
Definition resolved (x : QueueItem) (before after : QueueItem) : Prop :=
  id after = id before
  /\ (id before = id x -> status after = done \/ status after = error)
  /\ (id before <> id x -> after = before).

(** Task resumptions only: the environment runs outstanding tasks and the
    user does nothing. *)
Definition firings (fs : list (nat * Reply)) : list Event :=
  map (fun f => Fire (fst f) (snd f)) fs.

(** Ids are unique and were all drawn from the supply. *)
Definition freshIds (w : World) : Prop :=
  NoDup (map id (queue w)) /\ Forall (fun n => n < uuids w) (map id (queue w)).

(** The tasks that are a step of a running loop. *)
Definition isLoopTask (t : Task) : bool :=
  match t with
  | NextItem _ | Generating _ | Linking _ | DelayTimer => true
  | StartTimer | RetryTimer | Deleting => false
  end.

(** How many loops are alive: each loop has exactly one outstanding task. *)
Definition liveLoops (w : World) : nat :=
  List.length (filter isLoopTask (tasks w)).

(** At most one loop is alive, [processingRef] is on while it is, and no
    retry timer is armed. *)
Definition singleLoop (w : World) : Prop :=
  liveLoops w <= 1
  /\ (liveLoops w = 1 -> processingRef w = true)
  /\ ~ In RetryTimer (tasks w).

(** The events other than PAUSE, STOP and the two retries. *)
Definition keepsGoing (e : Event) : bool :=
  match e with
  | Pause | Stop | RetryOne _ | RetryAll => false
  | _ => true
  end.

(** A loop is busy with the record [x]: it has claimed a record with that
    id and has not yet written the outcome. *)
Definition inFlightFor (ts : list Task) (x : QueueItem) : Prop :=
  exists y, (In (NextItem (Some y)) ts \/ In (Generating y) ts) /\ id y = id x.

(** Every [processing] record is the one some loop is busy with. *)
Definition accounted (w : World) : Prop :=
  forall x, In x (queue w) -> status x = processing -> inFlightFor (tasks w) x.

(** What a row of the list shows of a record. *)
Definition view (item : QueueItem) : string * Status * option string :=
  (prompt item, status item, errorMsg item).

(** Weight of a world for a single loop: how many tasks it can still run
    when nothing but the loop's own task is outstanding. *)
Definition loopWeight (w : World) : nat :=
  let p := countStatus pending (queue w) in
  match tasks w with
  | [] => 0
  | NextItem None :: _ => 1
  | NextItem (Some _) :: _ => 4 * p + 5
  | Generating _ :: _ => 4 * p + 4
  | Linking _ :: _ => 4 * p + 3
  | _ :: _ => 4 * p + 2
  end.

(** A world in which exactly one loop is alive and runs unhindered, or in
    which it has just drained the queue. *)
Definition oneLoop (w : World) : Prop :=
  (tasks w = [] /\ isProcessing w = false /\ countStatus pending (queue w) = 0)
  \/ (processingRef w = true /\ pausedRef w = false /\
      (tasks w = [NextItem None] /\ countStatus pending (queue w) = 0
       \/ (exists x, tasks w = [NextItem (Some x)])
       \/ (exists x, tasks w = [Generating x])
       \/ (exists i, tasks w = [Linking i])
       \/ tasks w = [DelayTimer])).

(* ------------------------------------------------------------------ *)
(** *** Concrete sessions *)

Module Session.

(** The text of two prompt lines. *)
Definition twoLines (a b : string) : string :=
  a ++ String JsString.newline b.

(** START with two prompts, STOP while the first is being generated,
    START again. *)
Definition stopThenStart : list Event :=
  [ TypeCookie "cookie";
    TypePrompts (twoLines "a cat" "a dog");
    Start "10:00:00";
    Fire 0 Elapsed;           (* the timer of Start launches the loop *)
    Fire 0 Elapsed;           (* the loop learns its item and calls the service *)
    Stop;
    Start "10:00:05";
    Fire 1 Elapsed ].         (* the timer of the second Start *)

(** Two failed jobs, then Retry clicked on both rows before the first
    retry timer runs. *)
Definition retryTwice : list Event :=
  [ TypeCookie "cookie";
    TypePrompts (twoLines "a cat" "a dog");
    Start "10:00:00";
    Fire 0 Elapsed; Fire 0 Elapsed;
    Fire 0 (Generated (GenThrow None));
    Fire 0 Elapsed; Fire 0 Elapsed;
    Fire 0 (Generated (GenThrow None));
    Fire 0 Elapsed; Fire 0 Elapsed;   (* the queue is drained *)
    RetryOne 0; RetryOne 1;
    Fire 0 Elapsed; Fire 0 Elapsed ]. (* both retry timers *)

(** A generation service that fails for the prompt "a dog" with the
    message "rate limited" (as an error body, or as an exception when
    [thrown]) and succeeds with [resultUrl] otherwise, and a listing
    service that answers [listing]. *)
Definition failingForDog (resultUrl : option string) (listing : ListOutcome)
           (thrown : bool) : Services :=
  mkServices
    (fun _ item =>
       if String.eqb (prompt item) "a dog"
       then if thrown then GenThrow (Some "rate limited")
            else GenJson false None (Some "rate limited")
       else GenJson true resultUrl None)
    (fun _ => listing)
    (fun _ => DelThrow).

(** Services that always succeed. *)
Definition succeeding (resultUrl : option string) (listing : ListOutcome) : Services :=
  mkServices (fun _ _ => GenJson true resultUrl None)
             (fun _ => listing)
             (fun _ => DelJson true).

(** A world with one finished job, idle. *)
Definition oneDone : World :=
  mkWorld "cookie" EmptyString
          [mkItem 0 "a cat" done (Some "http://localhost:5000/output/cat.png")
                  None "10:00:00" None]
          false false false false [] 1 [].

(** A world whose loop waits for the generation of its only job. *)
Definition oneInFlight : World :=
  mkWorld "cookie" EmptyString
          [mkItem 0 "a cat" processing None None "10:00:00" None]
          true false true false
          [Generating (mkItem 0 "a cat" pending None None "10:00:00" None)] 1 [].

(** A world with a finished, a failed and two waiting jobs, the loop
    about to look for its next item. *)
Definition mixed : World :=
  mkWorld "cookie" EmptyString
          [mkItem 0 "a cat" done (Some "http://localhost:5000/output/cat.png")
                  None "10:00:00" None;
           mkItem 1 "a dog" error None (Some "rate limited") "10:00:00" None;
           mkItem 2 "a fox" pending None None "10:00:00" None;
           mkItem 3 "an owl" pending None None "10:00:00" None]
          true false true false [] 4 [].

End Session.

(* ================================================================== *)
(** ** Reference images ([handleReferenceImagesChange], [removeReferenceImage]) *)

Module References.

(** [prev.filter((_, i) => keep(i))], counting from [i]. *)
Fixpoint filterIndex {F : Type} (keep : nat -> bool) (i : nat) (l : list F) : list F :=
  match l with
  | [] => []
  | a :: r => if keep i then a :: filterIndex keep (S i) r
              else filterIndex keep (S i) r
  end.

(** [handleReferenceImagesChange]; [files] is [e.target.files], which may
    be null. *)
Definition handleReferenceImagesChange {F : Type} (files : option (list F))
           (prev : list F) : list F :=
  match files with
  | Some fs => firstn 3 (prev ++ fs)
  | None => prev
  end.

(** [removeReferenceImage] *)
Definition removeReferenceImage {F : Type} (index : nat) (prev : list F) : list F :=
  filterIndex (fun i => negb (Nat.eqb i index)) 0 prev.

(** What the user does to the reference images. *)
Inductive Action (F : Type) : Type :=
| Choose (files : option (list F))
| Remove (index : nat).
Arguments Choose {F} files.
Arguments Remove {F} index.

Definition act {F : Type} (a : Action F) (prev : list F) : list F :=
  match a with
  | Choose files => handleReferenceImagesChange files prev
  | Remove index => removeReferenceImage index prev
  end.

Definition acts {F : Type} (l : list (Action F)) (start : list F) : list F :=
  fold_left (fun acc a => act a acc) l start.

End References.

(* ================================================================== *)
(** ** Download of all images ([downloadAllAsZip]) *)

Module Zip.

(** [`${n}`] for a number: its decimal digits. *)
Definition decimal (n : nat) : string :=
  DecimalString.NilEmpty.string_of_uint (Nat.to_uint n).

(** A code unit matched by [[a-zA-Z0-9]]. *)
Definition isAlnum (c : ascii) : bool :=
  let n := nat_of_ascii c in
  (Nat.leb 48 n && Nat.leb n 57) || (Nat.leb 65 n && Nat.leb n 90)
  || (Nat.leb 97 n && Nat.leb n 122).

(** [s.replace(/[^a-zA-Z0-9]/g, '_')] *)
Fixpoint sanitize (s : string) : string :=
  match s with
  | EmptyString => EmptyString
  | String c r => String (if isAlnum c then c else "_"%char) (sanitize r)
  end.

(** The name of the archive. *)
Definition archiveName (projectName : string) : string :=
  sanitize projectName ++ ".zip".

(** [queue.filter(item => item.status === 'done' && item.imageUrl
    && item.imageUrl !== 'check_gallery')] *)
Definition hasImage (item : QueueItem) : bool :=
  isDone item
  && match imageUrl item with
     | Some u => JsString.truthy u && negb (String.eqb u "check_gallery")
     | None => false
     end.

Definition completedItems (q : list QueueItem) : list QueueItem :=
  filter hasImage q.

(** The loop over [completedItems] from index [i]: an image that cannot be
    fetched is skipped, the others are stored under their position plus
    one.  [fetchBlob] is [fetch(url)] followed by [blob()], [None] when
    either throws. *)
Fixpoint entries {B : Type} (fetchBlob : string -> option B) (i : nat)
         (items : list QueueItem) : list (string * B) :=
  match items with
  | [] => []
  | item :: rest =>
      let address := match imageUrl item with Some u => u | None => "undefined" end in
      match fetchBlob address with
      | Some blob => ((decimal (i + 1) ++ ".png")%string, blob) :: entries fetchBlob (S i) rest
      | None => entries fetchBlob (S i) rest
      end
  end.

(** What [downloadAllAsZip] ends with. *)
Inductive Outcome (B : Type) : Type :=
| Alerted (message : string)
| Saved (fileName : string) (files : list (string * B)).
Arguments Alerted {B} message.
Arguments Saved {B} fileName files.

(** [downloadAllAsZip]; [libraryWorks] says whether importing JSZip and
    generating the archive succeed (otherwise the outer [catch] runs). *)
Definition downloadAllAsZip {B : Type} (fetchBlob : string -> option B)
           (libraryWorks : bool) (projectName : string)
           (q : list QueueItem) : Outcome B :=
  let completed := completedItems q in
  if Nat.eqb (List.length completed) 0
  then Alerted "No completed images to download"
  else if libraryWorks
       then Saved (archiveName projectName) (entries fetchBlob 0 completed)
       else Alerted "Failed to create ZIP file".

End Zip.

(* ================================================================== *)
(** ** The server ([server/index.js]) as this page sees it *)

Module Server.

(** [hay.includes(needle)] *)
Fixpoint includes (needle hay : string) : bool :=
  String.prefix needle hay
  || match hay with
     | EmptyString => false
     | String _ r => includes needle r
     end.

(** [s.endsWith(suffix)] *)
Fixpoint endsWith (suffix s : string) : bool :=
  String.eqb s suffix
  || match s with
     | EmptyString => false
     | String _ r => endsWith suffix r
     end.

(** [`http://localhost:${PORT}/output/${f}`] *)
Definition outputUrl (f : string) : string :=
  "http://localhost:5000/output/" ++ f.



(** A file of the output directory with its modification time. *)
Record DirEntry : Type := mkEntry { entryName : string; mtime : nat }.

(** An element of the answer of [GET /api/images]. *)
Record Listed : Type := mkListed {
  listedUrl : string; listedName : string; listedTime : nat }.

(** [f.match(/\.(png|jpg|jpeg|webp)$/)] *)
Definition isImageName (f : string) : bool :=
  endsWith ".png" f || endsWith ".jpg" f || endsWith ".jpeg" f || endsWith ".webp" f.

(** [.sort((a, b) => b.time - a.time)]: the sort of an array is stable, so
    its result is that of a stable insertion. *)
Fixpoint insertNewest (x : Listed) (l : list Listed) : list Listed :=
  match l with
  | [] => [x]
  | y :: r => if Nat.leb (listedTime y) (listedTime x) then x :: l
              else y :: insertNewest x r
  end.

Definition sortNewestFirst (l : list Listed) : list Listed :=
  fold_right insertNewest [] l.

(** [GET /api/images]; [None] when the directory is missing or cannot be
    read. *)
Definition imagesEndpoint (dir : option (list DirEntry)) : list Listed :=
  match dir with
  | None => []
  | Some files =>
      sortNewestFirst
        (map (fun f => mkListed (outputUrl (entryName f)) (entryName f) (mtime f))
             (filter (fun f => isImageName (entryName f)) files))
  end.

(** The listing as [fetchLatestImageFor] reads it. *)
Definition asListOutcome (l : list Listed) : ListOutcome :=
  ListJson (map (fun f => mkImage (listedUrl f) (listedName f)) l).

(** What the Whisk library does with a session check. *)
Inductive WhiskSession : Type :=
| SessionOk
| SessionFails (message : string).

(** The body of the answer of [POST /api/validate-cookie]. *)
Record ValidateBody : Type := mkValidate {
  valid : bool;
  vStatus : option string;
  vMessage : option string;
  vError : option string
}.

(** [POST /api/validate-cookie] *)
Definition validateEndpoint (cookieSent : string) (o : WhiskSession) : ValidateBody :=
  if negb (JsString.truthy cookieSent)
  then mkValidate false None None (Some "Cookie is required")
  else match o with
       | SessionOk =>
           mkValidate true (Some "Connected")
                      (Some "Cookie is valid and session is active") None
       | SessionFails message =>
           if includes "401" message || includes "Unauthorized" message
           then mkValidate false (Some "Expired")
                           (Some "Cookie has expired. Please get a new cookie.")
                           (Some message)
           else if includes "403" message || includes "Forbidden" message
           then mkValidate false (Some "Blocked")
                           (Some "Access denied. Try using a VPN or check your account.")
                           (Some message)
           else if includes "network" message || includes "ECONNREFUSED" message
           then mkValidate false (Some "Network Error")
                           (Some "Cannot connect to Google servers.")
                           (Some message)
           else mkValidate false (Some "Invalid") (Some message) (Some message)
       end.

End Server.

(* ================================================================== *)
(** ** The session check ([handleCheckCookie]) *)

Module Check.

(** [SessionStatus['status']] *)
Inductive State : Type :=
| idle | checking | connected | expired | failed.   (* [failed] is ['error'] *)

(** [interface SessionStatus] *)
Record SessionStatus : Type := mkSession { state : State; message : option string }.

(** The answer to the page's request: a JSON body, or an exception. *)
Inductive Reply : Type :=
| Json (data : Server.ValidateBody)
| Throws.

(** [handleCheckCookie] up to its [fetch]: the status it sets, and whether
    the request is sent. *)
Definition begin (cookieText : string) : SessionStatus * bool :=
  if negb (JsString.truthy (JsString.trim cookieText))
  then (mkSession failed (Some "Please enter a cookie first"), false)
  else (mkSession checking (Some "Validating cookie..."), true).

(** [a || b] on two possibly undefined strings. *)
Definition orUndefined (a b : option string) : option string :=
  match a with
  | Some s => if JsString.truthy s then a else b
  | None => b
  end.

(** [handleCheckCookie] after the answer. *)
Definition finish (r : Reply) : SessionStatus :=
  match r with
  | Json data =>
      if Server.valid data
      then mkSession connected (Some (JsString.orElse (Server.vMessage data) "Connected!"))
      else match Server.vStatus data with
           | Some "Expired" => mkSession expired (Server.vMessage data)
           | _ => mkSession failed (orUndefined (Server.vMessage data) (Server.vError data))
           end
  | Throws => mkSession failed (Some "Cannot connect to server")
  end.

(** The status shown after the check, with this repository's server;
    [reachable] says whether the server answers at all. *)
Definition outcome (cookieText : string) (reachable : bool)
           (o : Server.WhiskSession) : SessionStatus :=
  match begin cookieText with
  | (shown, false) => shown
  | (_, true) =>
      finish (if reachable then Json (Server.validateEndpoint cookieText o) else Throws)
  end.

End Check.

(** A record compared with what it was: the same id and creation time. *)
Definition sameRecord (before after : QueueItem) : Prop :=
  id after = id before /\ timestamp after = timestamp before.

(** A record an edit may have touched: only its prompt and its editing
    mark can differ. *)
Definition editedOnly (before after : QueueItem) : Prop :=
  id after = id before /\ status after = status before
  /\ imageUrl after = imageUrl before /\ errorMsg after = errorMsg before
  /\ timestamp after = timestamp before.

(** No timer that launches a loop is armed. *)
Definition noLaunchTimer (ts : list Task) : Prop :=
  ~ In StartTimer ts /\ ~ In RetryTimer ts.

(** The three edit events. *)
Definition isEdit (e : Event) : bool :=
  match e with
  | StartEdit _ | SaveEdit _ _ | CancelEdit _ => true
  | _ => false
  end.

(** The generation requests sent while the outstanding tasks run, oldest
    first, as in [drain]: a request leaves when the loop has learnt its
    item, and carries the record as it was claimed. *)
Fixpoint requests (fuel : nat) (env : Services) (time : nat) (w : World) : list QueueItem :=
  match fuel with
  | 0 => []
  | S fuel' =>
      match tasks w with
      | [] => []
      | t :: _ =>
          match t with NextItem (Some item) => [item] | _ => [] end
          ++ requests fuel' env (S time) (step (Fire 0 (answer env time t)) w)
      end
  end.

(** A lone loop whose current item, if it has one, is no longer [pending]
    in the queue, over a queue of distinct ids. *)
Definition loopInOrder (w : World) : Prop :=
  oneLoop w /\ NoDup (map id (queue w))
  /\ forall x, tasks w = [NextItem (Some x)] \/ tasks w = [Generating x] ->
               forall y, In y (queue w) -> id y = id x -> status y <> pending.

(** What a lone loop still has to send: the item it has claimed and not
    yet sent, then the [pending] records in queue order. *)
Definition toSend (w : World) : list QueueItem :=
  match tasks w with
  | [NextItem (Some item)] => [item]
  | _ => []
  end ++ filter isPending (queue w).

(* ================================================================== *)
(** * Properties *)

(** ** Commits and task resumption *)

Lemma commit_same_flags (before after : World) :
  isProcessing after = isProcessing before ->
  isPaused after = isPaused before ->
  commit before after = after.
Proof.
  intros Hp Hq. unfold commit.
  rewrite Hp, Bool.eqb_reflx, Hq, Bool.eqb_reflx. reflexivity.
Qed.

Lemma commit_queue (before after : World) :
  queue (commit before after) = queue after.
Proof.
  unfold commit.
  destruct (Bool.eqb (isProcessing before) (isProcessing after));
    destruct (Bool.eqb _ _); reflexivity.
Qed.

Lemma commit_tasks (before after : World) :
  tasks (commit before after) = tasks after.
Proof.
  unfold commit.
  destruct (Bool.eqb (isProcessing before) (isProcessing after));
    destruct (Bool.eqb _ _); reflexivity.
Qed.

Lemma commit_isProcessing (before after : World) :
  isProcessing (commit before after) = isProcessing after.
Proof.
  unfold commit.
  destruct (Bool.eqb (isProcessing before) (isProcessing after));
    destruct (Bool.eqb _ _); reflexivity.
Qed.

Lemma commit_isPaused (before after : World) :
  isPaused (commit before after) = isPaused after.
Proof.
  unfold commit.
  destruct (Bool.eqb (isProcessing before) (isProcessing after));
    destruct (Bool.eqb _ _); reflexivity.
Qed.

(** A commit re-establishes the mirror when the handler kept it or wrote
    state and ref together. *)
Lemma commit_synced (before after : World) :
  synced before ->
  (processingRef after = isProcessing after
   \/ processingRef after = processingRef before) ->
  (pausedRef after = isPaused after
   \/ pausedRef after = pausedRef before) ->
  synced (commit before after).
Proof.
  intros [Hp Hq] Ha Hb. unfold commit, synced.
  destruct (Bool.eqb (isProcessing before) (isProcessing after)) eqn:E1;
    [apply Bool.eqb_prop in E1|];
    cbn [isPaused setProcessingRef];
    (destruct (Bool.eqb (isPaused before) (isPaused after)) eqn:E2;
     [apply Bool.eqb_prop in E2|]);
    cbn; split; try reflexivity;
    try (destruct Ha as [Ha|Ha]; [exact Ha | congruence]);
    try (destruct Hb as [Hb|Hb]; [exact Hb | congruence]).
Qed.

Lemma step_fire (k : nat) (r : Reply) (t : Task) (w w' : World) :
  nth_error (tasks w) k = Some t ->
  resume t r (setTasks (removeNth k) w) = Some w' ->
  step (Fire k r) w = commit w w'.
Proof.
  intros Ht Hr. unfold step, handle. rewrite Ht, Hr. reflexivity.
Qed.

Lemma removeNth_last {A : Type} (l : list A) (a : A) :
  removeNth (List.length l) (l ++ [a]) = l.
Proof.
  unfold removeNth.
  rewrite firstn_app, firstn_all, Nat.sub_diag. cbn [firstn].
  rewrite skipn_all2 by (rewrite length_app; cbn; lia).
  now rewrite !app_nil_r.
Qed.

Lemma nth_error_last {A : Type} (l : list A) (a : A) :
  nth_error (l ++ [a]) (List.length l) = Some a.
Proof.
  rewrite nth_error_app2 by lia. now rewrite Nat.sub_diag.
Qed.

(* ================================================================== *)
(** ** At most one job in flight *)

(** C1, on the code: the claim "at any instant at most one record is
    [processing]" fails.  START with two prompts, STOP while the first is
    being generated, START again: the second START finds [processingRef]
    cleared by STOP and launches a second loop next to the one that still
    awaits its generation call.  Both records are then [processing], and
    after the second loop's next step two generation calls are in flight. *)
Theorem C1_stop_then_start_two_in_flight :
  let w := run Session.stopThenStart (mount EmptyString) in
  map view (queue w) = [("a cat", processing, None); ("a dog", processing, None)]
  /\ countStatus processing (queue w) = 2
  /\ exists a b,
      tasks (step (Fire 1 Elapsed) w) = [Generating a; Generating b]
      /\ prompt a = "a cat" /\ prompt b = "a dog".
Proof.
  cbv zeta. split; [vm_compute; reflexivity|]. split; [vm_compute; reflexivity|].
  eexists. eexists. split; [vm_compute; reflexivity|].
  split; vm_compute; reflexivity.
Qed.

(** The same failure through the retry path, whose timer launches a loop
    without looking at [processingRef] (the timer of [handleStart] does
    look): Retry clicked on two failed rows in quick succession starts two
    loops. *)
Lemma retry_twice_two_in_flight :
  let w := run Session.retryTwice (mount EmptyString) in
  map view (queue w) = [("a cat", processing, None); ("a dog", processing, None)]
  /\ tasks w = [NextItem (Some (mkItem 0 "a cat" pending None None "10:00:00" None));
                NextItem (Some (mkItem 1 "a dog" pending None None "10:00:00" None))].
Proof. split; vm_compute; reflexivity. Qed.

(* ================================================================== *)
(** ** The end-to-end scenario *)

(** C2: START with the two lines "a cat" and "a dog" while the generation
    service succeeds for "a cat" and fails for "a dog" with "rate limited":
    once the loop has drained, the list shows exactly a cat / done and
    a dog / error / "rate limited".  Retry on the second row, with a
    service that now succeeds, and both records are done.  This holds for
    every non-empty cookie, every clock reading, every result reference and
    every answer of the listing service, and for both ways a generation can
    fail (error body or exception). *)
Theorem C2_scenario
  (c now : string) (u1 u2 : option string) (l1 l2 : ListOutcome) (thrown : bool) :
  c <> EmptyString ->
  let w0 := step (TypePrompts (Session.twoLines "a cat" "a dog")) (mount c) in
  let w1 := drain 12 (Session.failingForDog u1 l1 thrown) 0 (step (Start now) w0) in
  map view (queue w1) = [("a cat", done, None); ("a dog", error, Some "rate limited")]
  /\ tasks w1 = [] /\ isProcessing w1 = false
  /\ exists second,
      nth_error (queue w1) 1 = Some second
      /\ let w2 := drain 12 (Session.succeeding u2 l2) 0
                         (step (RetryOne (id second)) w1) in
         map prompt (queue w2) = ["a cat"; "a dog"]
         /\ map status (queue w2) = [done; done]
         /\ map errorMsg (queue w2) = [None; None]
         /\ tasks w2 = [] /\ isProcessing w2 = false.
Proof.
  intros Hc. destruct c as [|c0 c']; [congruence|].
  destruct thrown;
    destruct l1 as [[|f1 fs1]|]; destruct l2 as [[|f2 fs2]|];
    cbv zeta;
    (split; [vm_compute; reflexivity|]);
    (split; [vm_compute; reflexivity|]);
    (split; [vm_compute; reflexivity|]);
    eexists; (split; [vm_compute; reflexivity|]);
    (split; [vm_compute; reflexivity|]);
    (split; [vm_compute; reflexivity|]);
    (split; [vm_compute; reflexivity|]);
    (split; vm_compute; reflexivity).
Qed.

Lemma C2_scenario_witness :
  "cookie" <> EmptyString
  /\ map view (queue (drain 12 (Session.failingForDog (Some "u") ListThrow false) 0
                        (step (Start "10:00:00")
                              (step (TypePrompts (Session.twoLines "a cat" "a dog"))
                                    (mount "cookie")))))
     = [("a cat", done, None); ("a dog", error, Some "rate limited")].
Proof.
  assert (H : "cookie" <> EmptyString) by discriminate.
  split; [exact H|].
  exact (proj1 (C2_scenario "cookie" "10:00:00" (Some "u") None ListThrow ListThrow
                            false H)).
Defined.

(* ================================================================== *)
(** ** Updaters act record by record *)

Lemma Forall2_map_self {A : Type} (f : A -> A) (R : A -> A -> Prop) (l : list A) :
  (forall a, In a l -> R a (f a)) -> Forall2 R l (map f l).
Proof.
  induction l as [|a l IH]; intros H; cbn; constructor.
  - apply H. now left.
  - apply IH. intros b Hb. apply H. now right.
Qed.

Lemma Forall2_refl_on {A : Type} (R : A -> A -> Prop) (l : list A) :
  (forall a, R a a) -> Forall2 R l l.
Proof. intros H. induction l; constructor; auto. Qed.

Lemma Forall2_trans_on {A : Type} (R : A -> A -> Prop) (l1 l2 l3 : list A) :
  (forall a b c, R a b -> R b c -> R a c) ->
  Forall2 R l1 l2 -> Forall2 R l2 l3 -> Forall2 R l1 l3.
Proof.
  intros HR H12. revert l3.
  induction H12; intros l3 H23; inversion H23; subst; constructor; eauto.
Qed.

(** After the first updater of [handleClearAll] no record is [done], so
    the second one removes nothing. *)
Lemma dropDone_forgetImages (q : list QueueItem) :
  Updater.dropDone (Updater.forgetImages q) = Updater.forgetImages q.
Proof.
  unfold Updater.dropDone, Updater.forgetImages.
  induction q as [|x q IH]; [reflexivity|].
  cbn [map filter]. rewrite IH.
  destruct x as [i p s u e t ed]; destruct s; reflexivity.
Qed.

(* ================================================================== *)
(** ** Retry of one record *)

(** C3, as stated, fails: [retrySingleItem] does not look at the status.
    Called with the id of a finished record it sends the record back to
    [pending]. *)
Lemma C3_retry_resets_done_record :
  map status (queue Session.oneDone) = [done]
  /\ map status (queue (retrySingleItem 0 Session.oneDone)) = [pending].
Proof. split; vm_compute; reflexivity. Qed.

(** C3, amended: [retrySingleItem itemId] sets every record whose id is
    [itemId] to [pending] and clears its [errorMsg], whatever its status,
    keeps the other fields and the other records, and schedules the loop
    when [processingRef] is off.  The restriction to failed records is in
    the page, which renders the Retry control only on a row whose status is
    [error]: a Retry event for an id with no such row changes nothing, and
    otherwise it is [retrySingleItem]. *)
Theorem C3_retrySingleItem_effect (itemId : nat) (w : World) :
  Forall2 (fun before after =>
             (id before = itemId ->
              status after = pending /\ errorMsg after = None
              /\ id after = id before /\ prompt after = prompt before
              /\ imageUrl after = imageUrl before
              /\ timestamp after = timestamp before
              /\ isEditing after = isEditing before)
             /\ (id before <> itemId -> after = before))
          (queue w) (queue (retrySingleItem itemId w))
  /\ tasks (retrySingleItem itemId w)
     = (if processingRef w then tasks w else tasks w ++ [RetryTimer])
  /\ (showsRetry itemId (queue w) = false -> step (RetryOne itemId) w = w)
  /\ (showsRetry itemId (queue w) = true ->
      step (RetryOne itemId) w = retrySingleItem itemId w).
Proof.
  split; [|split; [|split]].
  - replace (queue (retrySingleItem itemId w))
      with (Updater.retryOne itemId (queue w))
      by (unfold retrySingleItem; destruct (processingRef w); reflexivity).
    apply Forall2_map_self. intros a _.
    destruct (Nat.eqb_spec (id a) itemId) as [E|E]; split; intros H;
      try contradiction; cbn; auto 10.
  - unfold retrySingleItem. destruct (processingRef w); reflexivity.
  - intros H. unfold step, handle. rewrite H. now apply commit_same_flags.
  - intros H. unfold step, handle. rewrite H. apply commit_same_flags;
      unfold retrySingleItem; destruct (processingRef w); reflexivity.
Qed.

Lemma C3_retrySingleItem_effect_witness :
  showsRetry 0 (queue Session.oneDone) = false
  /\ step (RetryOne 0) Session.oneDone = Session.oneDone
  /\ showsRetry 1 (queue Session.mixed) = true
  /\ step (RetryOne 1) Session.mixed = retrySingleItem 1 Session.mixed.
Proof.
  assert (H0 : showsRetry 0 (queue Session.oneDone) = false) by (vm_compute; reflexivity).
  assert (H1 : showsRetry 1 (queue Session.mixed) = true) by (vm_compute; reflexivity).
  split; [exact H0|]. split.
  - exact (proj1 (proj2 (proj2 (C3_retrySingleItem_effect 0 Session.oneDone))) H0).
  - split; [exact H1|].
    exact (proj2 (proj2 (proj2 (C3_retrySingleItem_effect 1 Session.mixed))) H1).
Defined.

(* ================================================================== *)
(** ** Clear All *)

(** Whatever the queue, a successful Clear All keeps every record: the
    first updater turns the finished ones into [pending] and forgets every
    image reference, and the second then finds nothing to drop. *)
Lemma clear_all_keeps_every_record (w : World) :
  let w' := afterDelete (DelJson true) w in
  queue w' = Updater.forgetImages (queue w)
  /\ map id (queue w') = map id (queue w)
  /\ Forall (fun item => imageUrl item = None /\ status item <> done) (queue w')
  /\ Forall2 (fun before after =>
                status after = (if isDone before then pending else status before))
             (queue w) (queue w').
Proof.
  cbv zeta. cbn [afterDelete setQueue queue].
  rewrite dropDone_forgetImages. split; [reflexivity|].
  unfold Updater.forgetImages. split; [|split].
  - rewrite map_map. apply map_ext. reflexivity.
  - apply Forall_forall. intros y Hy. apply in_map_iff in Hy.
    destruct Hy as [x [<- _]]. split; [reflexivity|].
    destruct x as [i p s u e t ed]; destruct s; cbn; discriminate.
  - apply Forall2_map_self. reflexivity.
Qed.

(** C5, on the code: after a Clear All whose deletion succeeded, the
    finished record is still in the queue, as a [pending] job without
    image; it has not been removed. *)
Theorem C5_clear_all_requeues_done :
  let w := run [ClearAll true; Fire 0 (Deleted (DelJson true))] Session.oneDone in
  map view (queue Session.oneDone) = [("a cat", done, None)]
  /\ map view (queue w) = [("a cat", pending, None)]
  /\ map imageUrl (queue w) = [None]
  /\ tasks w = [].
Proof.
  cbv zeta. split; [vm_compute; reflexivity|]. split; [vm_compute; reflexivity|].
  split; vm_compute; reflexivity.
Qed.

(* ================================================================== *)
(** ** Success and the reconciliation with the listing *)




(* ================================================================== *)
(** ** First pending first, retry in place *)

Lemma Status_eqb_eq (a b : Status) : Status_eqb a b = true <-> a = b.
Proof. destruct a, b; cbn; split; congruence. Qed.

Lemma isPending_true (x : QueueItem) : isPending x = true <-> status x = pending.
Proof. apply Status_eqb_eq. Qed.

Lemma isPending_false (x : QueueItem) : isPending x = false <-> status x <> pending.
Proof.
  unfold isPending. destruct (Status_eqb (status x) pending) eqn:E.
  - apply Status_eqb_eq in E. split; [discriminate | contradiction].
  - split; [|reflexivity]. intros _ H. apply Status_eqb_eq in H. congruence.
Qed.

Lemma find_first_pending (pre post : list QueueItem) (x : QueueItem) :
  Forall (fun y => status y <> pending) pre ->
  status x = pending ->
  find isPending (pre ++ x :: post) = Some x.
Proof.
  intros Hpre Hx. induction Hpre as [|y pre Hy _ IH]; cbn.
  - apply isPending_true in Hx. now rewrite Hx.
  - apply isPending_false in Hy. now rewrite Hy.
Qed.

Lemma find_pending_none (q : list QueueItem) :
  find isPending q = None <-> countStatus pending q = 0.
Proof.
  unfold countStatus. induction q as [|y q IH]; cbn; [tauto|].
  change (Status_eqb (status y) pending) with (isPending y).
  destruct (isPending y); cbn; [split; discriminate | exact IH].
Qed.

Lemma map_untouched {A : Type} (f : A -> A) (l : list A) :
  Forall (fun a => f a = a) l -> map f l = l.
Proof. induction 1; cbn; congruence. Qed.

Lemma claim_in_place (pre post : list QueueItem) (x : QueueItem) :
  NoDup (map id (pre ++ x :: post)) ->
  Updater.claim x (pre ++ x :: post) = pre ++ withStatus processing x :: post.
Proof.
  intros Hnd. rewrite map_app in Hnd. cbn [map] in Hnd.
  pose proof (NoDup_remove_2 _ _ _ Hnd) as Hnotin.
  unfold Updater.claim. rewrite map_app. cbn [map].
  rewrite Nat.eqb_refl. f_equal; [|f_equal]; apply map_untouched;
    apply Forall_forall; intros y Hy;
    destruct (Nat.eqb_spec (id y) (id x)) as [E|E]; try reflexivity;
    exfalso; apply Hnotin; apply in_or_app; [left|right];
    rewrite <- E; now apply in_map.
Qed.

(** C6: the claim step takes the first [pending] record in queue order,
    whatever finished or failed records precede it, and marks it
    [processing] where it stands; Retry on a failed row and Retry All turn
    a failed record into [pending] at the index it already had, and keep
    the order of the whole queue. *)
Theorem C6_fifo_claim_and_retry_in_place :
  (forall (w : World) (pre post : list QueueItem) (x : QueueItem),
      queue w = pre ++ x :: post ->
      Forall (fun y => status y <> pending) pre ->
      status x = pending ->
      NoDup (map id (queue w)) ->
      processingRef w = true -> pausedRef w = false ->
      queue (processNext w) = pre ++ withStatus processing x :: post
      /\ tasks (processNext w) = tasks w ++ [NextItem (Some x)])
  /\ (forall (w : World) (i : nat) (x : QueueItem),
         nth_error (queue w) i = Some x ->
         status x = error ->
         let retried := withErrorMsg None (withStatus pending x) in
         nth_error (queue (step (RetryOne (id x)) w)) i = Some retried
         /\ map id (queue (step (RetryOne (id x)) w)) = map id (queue w)
         /\ nth_error (queue (step RetryAll w)) i = Some retried
         /\ map id (queue (step RetryAll w)) = map id (queue w)).
Proof.
  split.
  - intros w pre post x Hq Hpre Hx Hnd Href Hpaused.
    unfold processNext. rewrite Href, Hpaused. cbn [negb].
    rewrite Hq, (find_first_pending pre post x Hpre Hx).
    cbn [spawn setTasks setQueue queue tasks]. rewrite Hq in *.
    now rewrite claim_in_place.
  - intros w i x Hi Hx. cbv zeta.
    assert (Hshow : showsRetry (id x) (queue w) = true).
    { apply existsb_exists. exists x. split; [eapply nth_error_In; eauto|].
      rewrite Nat.eqb_refl. unfold isError. rewrite Hx. reflexivity. }
    assert (Hone : queue (step (RetryOne (id x)) w)
                   = Updater.retryOne (id x) (queue w)).
    { unfold step, handle. rewrite Hshow, commit_queue.
      unfold retrySingleItem. destruct (processingRef w); reflexivity. }
    assert (Hall : queue (step RetryAll w) = Updater.retryAll (queue w)).
    { unfold step, handle. rewrite commit_queue.
      unfold retryAllErrors. destruct (processingRef w); reflexivity. }
    rewrite Hone, Hall. unfold Updater.retryOne, Updater.retryAll.
    rewrite !nth_error_map, Hi. cbn [option_map].
    rewrite Nat.eqb_refl. unfold isError at 1. rewrite Hx. cbn [Status_eqb].
    repeat split; rewrite map_map; apply map_ext; intros a.
    + destruct (Nat.eqb (id a) (id x)); reflexivity.
    + destruct (isError a); reflexivity.
Qed.

Lemma C6_fifo_claim_and_retry_in_place_witness :
  queue (processNext Session.mixed)
  = firstn 2 (queue Session.mixed)
    ++ withStatus processing (mkItem 2 "a fox" pending None None "10:00:00" None)
    :: skipn 3 (queue Session.mixed)
  /\ nth_error (queue (step (RetryOne 1) Session.mixed)) 1
     = Some (mkItem 1 "a dog" pending None None "10:00:00" None).
Proof.
  split.
  - refine (proj1 (proj1 C6_fifo_claim_and_retry_in_place Session.mixed
                         (firstn 2 (queue Session.mixed))
                         (skipn 3 (queue Session.mixed))
                         (mkItem 2 "a fox" pending None None "10:00:00" None)
                         eq_refl _ eq_refl _ eq_refl eq_refl)).
    + repeat constructor; cbn; discriminate.
    + repeat constructor; cbn; intuition (try discriminate; try lia).
  - exact (proj1 (proj2 C6_fifo_claim_and_retry_in_place Session.mixed 1
                        (mkItem 1 "a dog" error None (Some "rate limited") "10:00:00" None)
                        eq_refl eq_refl)).
Defined.

(* ================================================================== *)
(** ** Draining the queue *)

Lemma count_pending_map_le (f : QueueItem -> QueueItem) (q : list QueueItem) :
  (forall y, status (f y) = pending -> status y = pending) ->
  countStatus pending (map f q) <= countStatus pending q.
Proof.
  intros Hf. unfold countStatus. induction q as [|y q IH]; cbn; [lia|].
  destruct (Status_eqb (status (f y)) pending) eqn:E1.
  - apply Status_eqb_eq, Hf in E1. rewrite E1. cbn. lia.
  - destruct (Status_eqb (status y) pending); cbn; lia.
Qed.

Lemma count_pending_map_lt (f : QueueItem -> QueueItem) (q : list QueueItem)
      (x : QueueItem) :
  (forall y, status (f y) = pending -> status y = pending) ->
  In x q -> status x = pending -> status (f x) <> pending ->
  countStatus pending (map f q) < countStatus pending q.
Proof.
  intros Hf Hin Hx Hfx. induction q as [|y q IH]; [contradiction|].
  destruct Hin as [->|Hin].
  - pose proof (count_pending_map_le f q Hf) as Hle.
    unfold countStatus in *. cbn.
    apply isPending_false in Hfx. unfold isPending in Hfx. rewrite Hfx, Hx.
    cbn. lia.
  - specialize (IH Hin). unfold countStatus in *. cbn.
    destruct (Status_eqb (status (f y)) pending) eqn:E1.
    + apply Status_eqb_eq, Hf in E1. rewrite E1. cbn. lia.
    + destruct (Status_eqb (status y) pending); cbn; lia.
Qed.

Lemma count_pending_zero (q : list QueueItem) :
  countStatus pending q = 0 <-> Forall (fun y => status y <> pending) q.
Proof.
  unfold countStatus. induction q as [|y q IH]; cbn.
  - split; [constructor | reflexivity].
  - destruct (Status_eqb (status y) pending) eqn:E; cbn.
    + apply Status_eqb_eq in E. split; [discriminate|].
      intros H. inversion H; subst. contradiction.
    + split.
      * intros H. constructor; [|now apply IH].
        intros Hy. apply Status_eqb_eq in Hy. congruence.
      * intros H. inversion H; subst. now apply IH.
Qed.

Lemma claim_fewer_pending (q : list QueueItem) (p : QueueItem) :
  find isPending q = Some p ->
  countStatus pending (Updater.claim p q) < countStatus pending q.
Proof.
  intros Hf. apply find_some in Hf. destruct Hf as [Hin Hp].
  apply isPending_true in Hp.
  apply count_pending_map_lt with (x := p); auto.
  - intros y. destruct (Nat.eqb (id y) (id p)); cbn; [discriminate | auto].
  - rewrite Nat.eqb_refl. cbn. discriminate.
Qed.

Lemma settle_no_more_pending (x : QueueItem) (s : bool) (u e : option string)
      (q : list QueueItem) :
  countStatus pending (Updater.settle x s u e q) <= countStatus pending q.
Proof.
  apply count_pending_map_le. intros y.
  destruct (Nat.eqb (id y) (id x)); [destruct s; cbn; discriminate | auto].
Qed.

Lemma fail_no_more_pending (x : QueueItem) (m : option string) (q : list QueueItem) :
  countStatus pending (Updater.fail x m q) <= countStatus pending q.
Proof.
  apply count_pending_map_le. intros y.
  destruct (Nat.eqb (id y) (id x)); [cbn; discriminate | auto].
Qed.

Lemma link_no_more_pending (i : nat) (f : ImageInfo) (q : list QueueItem) :
  countStatus pending (Updater.link i f q) <= countStatus pending q.
Proof.
  apply count_pending_map_le. intros y.
  destruct (Nat.eqb (id y) i && isDone y); auto.
Qed.

(** One task of a lone loop: the loop stays alone and its weight drops. *)
Lemma oneLoop_step (env : Services) (time : nat) (w : World) (t : Task) (ts : list Task) :
  oneLoop w -> tasks w = t :: ts ->
  let w' := step (Fire 0 (answer env time t)) w in
  oneLoop w' /\ loopWeight w' < loopWeight w.
Proof.
  intros Hone Ht. cbv zeta.
  destruct Hone as [[Hnil _]|[Href [Hpau Hshape]]]; [congruence|].
  destruct w as [ck inp q ip ipd pr pdr tk uu al]. cbn [processingRef pausedRef tasks queue] in Href, Hpau, Ht, Hshape.
  subst pr pdr tk.
  destruct Hshape as [[Hs Hc]|[[x Hs]|[[x Hs]|[[i Hs]|Hs]]]];
    injection Hs as -> ->; cbn [answer].
  - (* the queue is drained *)
    unfold step, handle. cbn [tasks nth_error resume afterNextItem].
    split.
    + left. rewrite commit_tasks, commit_isProcessing, commit_queue. cbn. auto.
    + unfold loopWeight. rewrite commit_tasks. cbn. apply Nat.lt_0_1.
  - (* the item is known: the generation starts *)
    unfold step, handle. cbn [tasks nth_error resume afterNextItem].
    rewrite commit_same_flags by reflexivity.
    split; [right; cbn; eauto 10 | unfold loopWeight; cbn -[countStatus Nat.mul Updater.settle Updater.fail Updater.link Updater.claim]; lia].
  - (* the generation ends *)
    unfold step, handle. cbn [tasks nth_error resume].
    destruct (generate env time x) as [[|] u e|m];
      cbn [afterGenerate fetchLatestImageFor scheduleNext];
      rewrite commit_same_flags by reflexivity;
      (split; [right; cbn; eauto 10|]); unfold loopWeight; cbn -[countStatus Nat.mul Updater.settle Updater.fail Updater.link Updater.claim];
      [pose proof (settle_no_more_pending x true u e q)
      |pose proof (settle_no_more_pending x false u e q)
      |pose proof (fail_no_more_pending x m q)]; lia.
  - (* the listing ends *)
    unfold step, handle. cbn [tasks nth_error resume].
    destruct (listImages env time) as [[|f fs]|]; cbn [afterListing scheduleNext];
      rewrite commit_same_flags by reflexivity;
      (split; [right; cbn; eauto 10|]); unfold loopWeight; cbn -[countStatus Nat.mul Updater.settle Updater.fail Updater.link Updater.claim]; try lia.
    pose proof (link_no_more_pending i f q). lia.
  - (* the delay is over: next iteration *)
    unfold step, handle. cbn [tasks nth_error resume].
    unfold processNext. cbn [processingRef pausedRef negb setTasks queue].
    destruct (find isPending q) as [p|] eqn:Hf.
    + rewrite commit_same_flags by reflexivity.
      split; [right; cbn; eauto 10|]. unfold loopWeight; cbn -[countStatus Nat.mul Updater.settle Updater.fail Updater.link Updater.claim].
      pose proof (claim_fewer_pending q p Hf). lia.
    + rewrite commit_same_flags by reflexivity.
      apply find_pending_none in Hf.
      split; [right; cbn; auto 10|]. unfold loopWeight; cbn -[countStatus Nat.mul Updater.settle Updater.fail Updater.link Updater.claim]. lia.
Qed.

(** A lone loop runs out of tasks within its weight, and then the queue
    holds no [pending] record and [isProcessing] is off. *)
Lemma oneLoop_drains (env : Services) (n : nat) :
  forall (time : nat) (w : World),
    oneLoop w -> loopWeight w <= n ->
    let w' := drain n env time w in
    tasks w' = [] /\ isProcessing w' = false /\ countStatus pending (queue w') = 0.
Proof.
  induction n as [|n IH]; intros time w Hone Hw; cbv zeta.
  - cbn [drain]. destruct Hone as [H|[_ [_ Hshape]]]; [exact H|].
    exfalso. unfold loopWeight in Hw.
    destruct Hshape as [[Hs _]|[[x Hs]|[[x Hs]|[[i Hs]|Hs]]]];
      rewrite Hs in Hw; lia.
  - cbn [drain]. destruct (tasks w) as [|t ts] eqn:Ht.
    + destruct Hone as [H|[_ [_ Hshape]]]; [exact H|].
      exfalso.
      destruct Hshape as [[Hs _]|[[x Hs]|[[x Hs]|[[i Hs]|Hs]]]]; congruence.
    + destruct (oneLoop_step env time w t ts Hone Ht) as [Hone' Hlt].
      apply IH; [exact Hone' | lia].
Qed.

(** C7: when the loop looks for its next item and no record is [pending],
    it claims nothing, calls no service and leaves the queue as it is; as
    soon as it learns that there is no item it turns [isProcessing] off
    and ends (no task of the loop remains).  Consequently a loop started
    on an idle component with any finite queue, with services that answer
    every call and no user action in between, ends after at most four
    tasks per pending record plus one, with no record left [pending]. *)
Theorem C7_drain_termination :
  (forall w : World,
      processingRef w = true -> pausedRef w = false ->
      Forall (fun x => status x <> pending) (queue w) ->
      let w1 := processNext w in
      let w2 := step (Fire (List.length (tasks w)) Elapsed) w1 in
      queue w1 = queue w /\ tasks w1 = tasks w ++ [NextItem None]
      /\ queue w2 = queue w /\ tasks w2 = tasks w
      /\ isProcessing w2 = false
      /\ (synced w -> processingRef w2 = false))
  /\ (forall (env : Services) (time : nat) (w : World) (n : nat),
         tasks w = [] ->
         processingRef w = true -> pausedRef w = false ->
         4 * countStatus pending (queue w) + 1 <= n ->
         let w' := drain n env time (processNext w) in
         tasks w' = [] /\ isProcessing w' = false
         /\ Forall (fun x => status x <> pending) (queue w')).
Proof.
  split.
  - intros w Href Hpau Hnone. cbv zeta.
    apply count_pending_zero, find_pending_none in Hnone.
    assert (H1 : processNext w = spawn (NextItem None) w).
    { unfold processNext. now rewrite Href, Hpau, Hnone. }
    rewrite H1.
    split; [reflexivity|]. split; [reflexivity|].
    assert (H2 : step (Fire (List.length (tasks w)) Elapsed) (spawn (NextItem None) w)
                 = commit (spawn (NextItem None) w)
                          (setIsProcessing false
                             (setTasks (removeNth (List.length (tasks w)))
                                       (spawn (NextItem None) w)))).
    { apply step_fire with (t := NextItem None); [|reflexivity].
      cbn [spawn setTasks tasks]. apply nth_error_last. }
    rewrite H2, commit_queue, commit_tasks, commit_isProcessing.
    cbn [spawn setTasks setIsProcessing tasks queue isProcessing].
    rewrite removeNth_last.
    split; [reflexivity|]. split; [reflexivity|]. split; [reflexivity|].
    intros [Hs _]. rewrite Href in Hs.
    unfold commit.
    cbn [spawn setTasks setIsProcessing isProcessing isPaused setProcessingRef].
    rewrite <- Hs. cbn [Bool.eqb].
    match goal with |- processingRef (if ?b then _ else _) = _ => destruct b end;
      reflexivity.
  - intros env time w n Hidle Href Hpau Hn. cbv zeta.
    assert (Hstart : oneLoop (processNext w)
                     /\ loopWeight (processNext w)
                        <= 4 * countStatus pending (queue w) + 1).
    { unfold processNext. rewrite Href, Hpau. cbn [negb].
      destruct (find isPending (queue w)) as [p|] eqn:Hf.
      - split.
        + right. cbn [spawn setTasks setQueue tasks processingRef pausedRef].
          rewrite Hidle. split; [exact Href|]. split; [exact Hpau|].
          right; left. eexists. reflexivity.
        + unfold loopWeight. cbn [spawn setTasks setQueue tasks queue].
          rewrite Hidle. cbn [app].
          pose proof (claim_fewer_pending (queue w) p Hf). lia.
      - apply find_pending_none in Hf. split.
        + right. cbn [spawn setTasks setQueue tasks processingRef pausedRef queue].
          rewrite Hidle. split; [exact Href|]. split; [exact Hpau|].
          left. split; [reflexivity | exact Hf].
        + unfold loopWeight. cbn [spawn setTasks tasks].
          rewrite Hidle. cbn [app]. lia. }
    destruct Hstart as [Hone Hw].
    destruct (oneLoop_drains env n time (processNext w) Hone) as [Ht [Hp Hc]];
      [lia|].
    split; [exact Ht|]. split; [exact Hp|]. now apply count_pending_zero.
Qed.

Lemma C7_drain_termination_witness :
  (let w := Session.mixed in
   let w' := drain 9 (Session.succeeding None ListThrow) 0 (processNext w) in
   tasks w' = [] /\ isProcessing w' = false
   /\ Forall (fun x => status x <> pending) (queue w'))
  /\ (let w := setProcessingRef true Session.oneDone in
      isProcessing (step (Fire (List.length (tasks w)) Elapsed) (processNext w)) = false).
Proof.
  split.
  - refine (proj2 C7_drain_termination (Session.succeeding None ListThrow) 0
                  Session.mixed 9 eq_refl eq_refl eq_refl _).
    vm_compute. repeat constructor.
  - refine (proj1 (proj2 (proj2 (proj2 (proj2
             (proj1 C7_drain_termination (setProcessingRef true Session.oneDone)
                    eq_refl eq_refl _)))))).
    repeat constructor; cbn; discriminate.
Defined.

(* ================================================================== *)
(** ** Pause *)

Lemma notClaimed_refl (a : QueueItem) : notClaimed a a.
Proof. split; auto. Qed.

Lemma notClaimed_trans (a b c : QueueItem) :
  notClaimed a b -> notClaimed b c -> notClaimed a c.
Proof. intros [H1 H2] [H3 H4]. split; [congruence | auto]. Qed.

Lemma commit_pausedRef (before after : World) :
  isPaused after = isPaused before ->
  pausedRef (commit before after) = pausedRef after.
Proof.
  intros H. unfold commit.
  destruct (Bool.eqb (isProcessing before) (isProcessing after));
    cbn [isPaused setProcessingRef]; rewrite H, Bool.eqb_reflx; reflexivity.
Qed.

(** While [pausedRef] is on, [processNext] returns at once. *)
Lemma processNext_paused (w : World) :
  pausedRef w = true -> processNext w = w.
Proof.
  intros H. unfold processNext. rewrite H. destruct (processingRef w); reflexivity.
Qed.

(** A resumed task, whatever it is, claims nothing while [pausedRef] is on,
    and leaves the pause flags alone. *)
Lemma resume_paused (t : Task) (r : Reply) (w w' : World) :
  pausedRef w = true ->
  resume t r w = Some w' ->
  Forall2 notClaimed (queue w) (queue w')
  /\ isPaused w' = isPaused w /\ pausedRef w' = true.
Proof.
  intros Hp Hr.
  assert (Hsame : Forall2 notClaimed (queue w) (queue w))
    by (apply Forall2_refl_on, notClaimed_refl).
  destruct t as [| |o|x|i| |]; destruct r as [|g|l|d]; try discriminate;
    cbn [resume] in Hr; injection Hr as <-.
  - (* timer of Start *)
    unfold startTimer, processQueue.
    destruct (processingRef w); cbn [negb]; [auto|].
    rewrite processNext_paused by exact Hp. cbn. auto.
  - (* timer of Retry *)
    unfold retryTimer, processQueue.
    rewrite processNext_paused by exact Hp. cbn. auto.
  - destruct o; cbn; auto.
  - (* the generation ends *)
    destruct g as [s u e|m]; [destruct s|]; cbn; (split; [|auto]);
      apply Forall2_map_self; intros a _;
      destruct (Nat.eqb (id a) (id x)); split; cbn; auto; discriminate.
  - (* the listing ends *)
    destruct l as [[|f fs]|]; cbn; auto.
    split; [|auto]. apply Forall2_map_self. intros a _.
    destruct (Nat.eqb (id a) i && isDone a); split; cbn; auto.
  - (* the delay is over *)
    rewrite processNext_paused by exact Hp. auto.
  - (* the deletion ends *)
    destruct d as [[|]|]; cbn [afterDelete]; auto.
    cbn [setQueue queue isPaused pausedRef]. rewrite dropDone_forgetImages.
    split; [|auto]. apply Forall2_map_self. intros a _.
    split; [reflexivity|]. destruct a as [i p s u e t ed]; destruct s; cbn; auto;
      discriminate.
Qed.

Lemma step_fire_paused (k : nat) (r : Reply) (w : World) :
  pausedRef w = true ->
  Forall2 notClaimed (queue w) (queue (step (Fire k r) w))
  /\ pausedRef (step (Fire k r) w) = true.
Proof.
  intros Hp. unfold step, handle.
  assert (Hsame : Forall2 notClaimed (queue w) (queue w))
    by (apply Forall2_refl_on, notClaimed_refl).
  destruct (nth_error (tasks w) k) as [t|];
    [destruct (resume t r (setTasks (removeNth k) w)) as [w'|] eqn:Hr|].
  - destruct (resume_paused t r (setTasks (removeNth k) w) w' Hp Hr) as [Hq [Hi Hpr]].
    rewrite commit_queue, commit_pausedRef by exact Hi. auto.
  - rewrite commit_same_flags by reflexivity. auto.
  - rewrite commit_same_flags by reflexivity. auto.
Qed.

Lemma run_firings_paused (fs : list (nat * Reply)) :
  forall w : World,
    pausedRef w = true ->
    Forall2 notClaimed (queue w) (queue (run (firings fs) w))
    /\ pausedRef (run (firings fs) w) = true.
Proof.
  induction fs as [|[k r] fs IH]; intros w Hp; cbn.
  - split; [apply Forall2_refl_on, notClaimed_refl | exact Hp].
  - destruct (step_fire_paused k r w Hp) as [H1 H2].
    destruct (IH _ H2) as [H3 H4]. split; [|exact H4].
    eapply Forall2_trans_on; [exact notClaimed_trans | exact H1 | exact H3].
Qed.

(** The completion of a generation resolves the records with the claimed
    id, in any world. *)
Lemma generation_resolves (w : World) (k : nat) (x : QueueItem) (g : GenOutcome) :
  nth_error (tasks w) k = Some (Generating x) ->
  Forall2 (resolved x) (queue w) (queue (step (Fire k (Generated g)) w)).
Proof.
  intros Hk. rewrite (step_fire k (Generated g) _ w _ Hk eq_refl), commit_queue.
  destruct g as [s u e|m]; [destruct s|]; cbn;
    apply Forall2_map_self; intros a _; unfold resolved;
    destruct (Nat.eqb_spec (id a) (id x)) as [E|E]; cbn;
    repeat split; auto; intros; congruence.
Qed.

(** C8: PAUSE turns [isPaused] on and [isProcessing] off, and the refs
    follow.  From then on, as long as the user does nothing else, whatever
    tasks run and whatever the services answer, no record is claimed: a
    record that is [processing] afterwards already was before.  The job
    that was in flight is not recalled: when its generation call completes,
    with whatever outcome, every record with its id becomes [done] or
    [error], and the other records are untouched. *)
Theorem C8_pause_halts_intake_not_completion (w : World) :
  synced w ->
  let w1 := step Pause w in
  isPaused w1 = true /\ isProcessing w1 = false
  /\ pausedRef w1 = true /\ processingRef w1 = false
  /\ queue w1 = queue w /\ tasks w1 = tasks w
  /\ forall fs : list (nat * Reply),
      let w' := run (firings fs) w1 in
      pausedRef w' = true
      /\ Forall2 notClaimed (queue w1) (queue w')
      /\ forall (k : nat) (x : QueueItem) (g : GenOutcome),
          nth_error (tasks w') k = Some (Generating x) ->
          Forall2 (resolved x) (queue w') (queue (step (Fire k (Generated g)) w')).
Proof.
  intros [Hs1 Hs2]. cbv zeta.
  assert (Hp : pausedRef (step Pause w) = true).
  { unfold step, handle, handlePause, commit.
    destruct w as [ck inp q ip ipd pr pdr tk uu al]. cbn in *. subst.
    destruct ip, ipd; reflexivity. }
  split; [unfold step; now rewrite commit_isPaused|].
  split; [unfold step; now rewrite commit_isProcessing|].
  split; [exact Hp|].
  split.
  { unfold step, handle, handlePause, commit.
    destruct w as [ck inp q ip ipd pr pdr tk uu al]. cbn in *. subst.
    destruct ip, ipd; reflexivity. }
  split; [unfold step; now rewrite commit_queue|].
  split; [unfold step; now rewrite commit_tasks|].
  intros fs. destruct (run_firings_paused fs _ Hp) as [H1 H2].
  split; [exact H2|]. split; [exact H1|].
  intros k x g Hk. now apply generation_resolves.
Qed.

Lemma C8_pause_halts_intake_not_completion_witness :
  synced Session.oneInFlight
  /\ map status (queue (run (firings [(0, Generated (GenJson true None None));
                                      (0, Listed ListThrow); (0, Elapsed)])
                            (step Pause Session.oneInFlight)))
     = [done]
  /\ pausedRef (step Pause Session.oneInFlight) = true.
Proof.
  assert (H : synced Session.oneInFlight) by (split; reflexivity).
  split; [exact H|]. split; [vm_compute; reflexivity|].
  exact (proj1 (proj2 (proj2 (C8_pause_halts_intake_not_completion _ H)))).
Defined.

(* ================================================================== *)
(** ** Start *)

Lemma truthy_false (s : string) : JsString.truthy s = false <-> s = EmptyString.
Proof. destruct s; cbn; split; congruence. Qed.

Lemma handleStart_flags (now : string) (w : World) :
  isProcessing (handleStart now w) = isProcessing w
  /\ processingRef (handleStart now w) = processingRef w.
Proof.
  unfold handleStart.
  destruct (negb (JsString.truthy (cookie w))); [split; reflexivity|].
  destruct (_ && _); [split; reflexivity|].
  destruct (Nat.ltb 0 _); split; reflexivity.
Qed.

Lemma commit_processingRef (before after : World) :
  isProcessing after = isProcessing before ->
  processingRef (commit before after) = processingRef after.
Proof.
  intros H. unfold commit. rewrite H, Bool.eqb_reflx.
  destruct (Bool.eqb _ _); reflexivity.
Qed.

(** *** A single loop stays single *)

Lemma removeNth_In {A : Type} (k : nat) (l : list A) (a : A) :
  In a (removeNth k l) -> In a l.
Proof.
  unfold removeNth. intros H. apply in_app_or in H.
  rewrite <- (firstn_skipn k l). apply in_or_app.
  destruct H as [H|H]; [now left|right].
  rewrite <- (firstn_skipn 1 (skipn k l)). apply in_or_app. right.
  now rewrite skipn_skipn.
Qed.

Lemma removeNth_count {A : Type} (f : A -> bool) (l : list A) :
  forall (k : nat) (t : A),
    nth_error l k = Some t ->
    List.length (filter f l)
    = List.length (filter f (removeNth k l)) + (if f t then 1 else 0).
Proof.
  unfold removeNth.
  induction l as [|a l IH]; intros [|k] t H; cbn in H; try discriminate.
  - injection H as ->. cbn. destruct (f t); cbn; lia.
  - cbn [firstn skipn app filter]. specialize (IH k t H).
    cbn [skipn] in IH. destruct (f a); cbn [List.length]; lia.
Qed.

Lemma liveLoops_spawn (t : Task) (w : World) :
  liveLoops (spawn t w) = liveLoops w + (if isLoopTask t then 1 else 0).
Proof.
  unfold liveLoops, spawn. cbn [setTasks tasks].
  rewrite filter_app, length_app. cbn. destruct (isLoopTask t); reflexivity.
Qed.

(** What a handler other than PAUSE, STOP and the retries leaves behind a
    single loop, before the commit. *)
Lemma handle_singleLoop (e : Event) (w : World) :
  singleLoop w -> keepsGoing e = true ->
  liveLoops (handle e w) <= 1
  /\ ~ In RetryTimer (tasks (handle e w))
  /\ (liveLoops (handle e w) = 1 ->
      processingRef (handle e w) = true
      /\ (isProcessing (handle e w) = isProcessing w
          \/ isProcessing (handle e w) = true)).
Proof.
  intros [Hle [Href Hno]] He.
  assert (Hsame : forall a : World,
             tasks a = tasks w -> processingRef a = processingRef w ->
             isProcessing a = isProcessing w ->
             liveLoops a <= 1 /\ ~ In RetryTimer (tasks a)
             /\ (liveLoops a = 1 ->
                 processingRef a = true
                 /\ (isProcessing a = isProcessing w \/ isProcessing a = true))).
  { intros a Ht Hr Hi. unfold liveLoops. rewrite Ht, Hr.
    split; [exact Hle|]. split; [exact Hno|]. intros H. split; [now apply Href|].
    now left. }
  destruct e as [s|s|now| | |i| |i|i p|i|c|k r]; try discriminate; cbn [handle];
    try (apply Hsame; reflexivity).
  - (* START *)
    unfold handleStart.
    destruct (negb (JsString.truthy (cookie w))); [apply Hsame; reflexivity|].
    destruct (_ && _); [apply Hsame; reflexivity|].
    assert (Hadd : forall a : World,
               tasks a = tasks w -> processingRef a = processingRef w ->
               isProcessing a = isProcessing w ->
               liveLoops (spawn StartTimer a) <= 1
               /\ ~ In RetryTimer (tasks (spawn StartTimer a))
               /\ (liveLoops (spawn StartTimer a) = 1 ->
                   processingRef (spawn StartTimer a) = true
                   /\ (isProcessing (spawn StartTimer a) = isProcessing w
                       \/ isProcessing (spawn StartTimer a) = true))).
    { intros a Ht Hr Hi. rewrite liveLoops_spawn. cbn [isLoopTask].
      rewrite Nat.add_0_r. unfold liveLoops. cbn [spawn setTasks tasks processingRef
                                                    isProcessing].
      rewrite Ht, Hr, Hi. split; [exact Hle|]. split.
      - intros H. apply in_app_or in H. destruct H as [H|[H|[]]];
          [contradiction | discriminate].
      - intros H. split; [now apply Href | now left]. }
    destruct (Nat.ltb 0 _); apply Hadd; reflexivity.
  - destruct (showsEdit i (queue w)); apply Hsame; reflexivity.
  - destruct (showsEditor i (queue w)); apply Hsame; reflexivity.
  - destruct (showsEditor i (queue w)); apply Hsame; reflexivity.
  - (* Clear All *)
    destruct c; cbn [handleClearAll negb]; [|apply Hsame; reflexivity].
    rewrite liveLoops_spawn. cbn [isLoopTask]. rewrite Nat.add_0_r.
    split; [exact Hle|]. split.
    + cbn [spawn setTasks tasks]. intros H. apply in_app_or in H.
      destruct H as [H|[H|[]]]; [contradiction | discriminate].
    + intros H. split; [now apply Href | now left].
  - (* a task resumes *)
    destruct (nth_error (tasks w) k) as [t|] eqn:Hk; [|apply Hsame; reflexivity].
    pose proof (removeNth_count isLoopTask (tasks w) k t Hk) as Hcount.
    fold (liveLoops w) in Hcount.
    assert (Hno' : ~ In RetryTimer (removeNth k (tasks w)))
      by (intros H; apply Hno; eapply removeNth_In; eauto).
    set (w0 := setTasks (removeNth k) w) in *.
    assert (Hw0 : liveLoops w0 = List.length (filter isLoopTask (removeNth k (tasks w))))
      by reflexivity.
    assert (Hnext : forall a : World,
               tasks a = tasks w0 -> liveLoops w0 = 0 ->
               (processingRef a = true ->
                isProcessing a = isProcessing w \/ isProcessing a = true) ->
               liveLoops (processNext a) <= 1
               /\ ~ In RetryTimer (tasks (processNext a))
               /\ (liveLoops (processNext a) = 1 ->
                   processingRef (processNext a) = true
                   /\ (isProcessing (processNext a) = isProcessing w
                       \/ isProcessing (processNext a) = true))).
    { intros a Ht H0 Hi.
      assert (Ha : liveLoops a = 0) by (unfold liveLoops; rewrite Ht; exact H0).
      assert (Hna : ~ In RetryTimer (tasks a)) by (rewrite Ht; exact Hno').
      unfold processNext.
      destruct (processingRef a) eqn:E1; cbn [negb];
        [|split; [lia|]; split; [exact Hna|]; intros H; lia].
      destruct (pausedRef a) eqn:E2;
        [split; [lia|]; split; [exact Hna|]; intros H; lia|].
      destruct (find isPending (queue a)) as [p|];
        rewrite liveLoops_spawn; cbn [isLoopTask];
        (split; [unfold liveLoops in *; cbn [setQueue tasks] in *; lia|]);
        (split; [cbn [spawn setTasks setQueue tasks]; intros H;
                 apply in_app_or in H; destruct H as [H|[H|[]]];
                 [contradiction | discriminate]|]);
        intros _; cbn [spawn setTasks setQueue processingRef isProcessing];
        (split; [exact E1 | now apply Hi]). }
    assert (Hmove : forall (t' : Task) (a : World),
               isLoopTask t = true -> isLoopTask t' = true ->
               tasks a = tasks w0 -> processingRef a = processingRef w ->
               isProcessing a = isProcessing w ->
               liveLoops (spawn t' a) <= 1
               /\ ~ In RetryTimer (tasks (spawn t' a))
               /\ (liveLoops (spawn t' a) = 1 ->
                   processingRef (spawn t' a) = true
                   /\ (isProcessing (spawn t' a) = isProcessing w
                       \/ isProcessing (spawn t' a) = true))).
    { intros t' a Hl Hl' Ht Hr Hi. rewrite Hl in Hcount.
      rewrite liveLoops_spawn, Hl'.
      assert (Ha : liveLoops a = liveLoops w0) by (unfold liveLoops; now rewrite Ht).
      split; [lia|]. split.
      - cbn [spawn setTasks tasks]. rewrite Ht. intros H.
        apply in_app_or in H. destruct H as [H|[H|[]]]; [contradiction|].
        subst t'. discriminate.
      - intros _. cbn [spawn setTasks processingRef isProcessing].
        split; [rewrite Hr; apply Href; lia | now left]. }
    destruct t as [| |o|x|j| |]; destruct r as [|g|l|d]; cbn [resume];
      try (apply Hsame; reflexivity).
    + (* the timer of START *)
      cbn [isLoopTask] in Hcount. unfold startTimer, processQueue.
      destruct (processingRef w0) eqn:E; cbn [negb].
      * split; [lia|]. split; [exact Hno'|]. intros H.
        split; [exact E | now left].
      * apply Hnext; [reflexivity| |intros _; now right].
        destruct (Nat.eq_dec (liveLoops w) 1) as [H1|H1]; [|lia].
        apply Href in H1. change (processingRef w0) with (processingRef w) in E.
        congruence.
    + (* a retry timer: there is none *)
      exfalso. apply Hno. eapply nth_error_In; eauto.
    + (* the item is known *)
      destruct o as [x|]; cbn [afterNextItem].
      * apply Hmove; reflexivity.
      * cbn [isLoopTask] in Hcount.
        split; [unfold liveLoops in *; cbn [setIsProcessing tasks] in *; lia|].
        split; [exact Hno'|]. intros H.
        unfold liveLoops in *; cbn [setIsProcessing tasks] in *; lia.
    + (* the generation ends *)
      destruct g as [[|] u e|m];
        cbn [afterGenerate fetchLatestImageFor scheduleNext];
        apply Hmove; reflexivity.
    + (* the listing ends *)
      destruct l as [[|f fs]|]; cbn [afterListing scheduleNext];
        apply Hmove; reflexivity.
    + (* the delay is over *)
      cbn [isLoopTask] in Hcount.
      apply Hnext; [reflexivity | lia |].
      intros _. now left.
    + (* the deletion ends *)
      cbn [isLoopTask] in Hcount.
      destruct d as [[|]|]; cbn [afterDelete];
        (split; [unfold liveLoops in *; cbn in *; lia|]);
        (split; [exact Hno'|]); intros H;
        (split; [apply Href; unfold liveLoops in *; cbn in *; lia | now left]).
Qed.

Lemma step_singleLoop (e : Event) (w : World) :
  singleLoop w -> keepsGoing e = true -> singleLoop (step e w).
Proof.
  intros Hw He. destruct (handle_singleLoop e w Hw He) as [H1 [H2 H3]].
  unfold singleLoop, step, liveLoops in *. rewrite commit_tasks.
  split; [exact H1|]. split; [|exact H2].
  intros H. destruct (H3 H) as [Hr [Hi|Hi]].
  - now rewrite commit_processingRef.
  - unfold commit. rewrite Hi.
    destruct (isProcessing w); cbn [Bool.eqb];
      match goal with |- processingRef (if ?b then _ else _) = _ => destruct b end;
      cbn; auto.
Qed.

Lemma run_singleLoop (es : list Event) :
  forall w : World,
    singleLoop w -> forallb keepsGoing es = true -> singleLoop (run es w).
Proof.
  induction es as [|e es IH]; intros w Hw Hes; cbn in *; [exact Hw|].
  apply andb_prop in Hes. destruct Hes as [He Hes].
  apply IH; [now apply step_singleLoop | exact Hes].
Qed.

(** C9: START pressed while the loop runs ([processingRef] on) appends
    the records of the newly entered lines behind the queued ones, which it
    leaves as they are, and at most arms its timer; it launches nothing
    itself and [processingRef] stays on.  The timer of START, when it runs
    in a world where [processingRef] is on, does nothing at all: no second
    loop, no claim.  A claim is exclusive: once the loop has claimed a
    record, no record with that id is [pending], so no later claim can
    select it again.  And however often START is pressed, and whatever
    tasks run in whatever order in between, a single loop stays single as
    long as the user does not pause, stop or retry. *)
Theorem C9_start_while_running (now : string) (w : World) :
  processingRef w = true ->
  let w1 := step (Start now) w in
  queue w1
  = queue w ++ (if JsString.truthy (cookie w)
                then newItems now (uuids w) (promptLines (promptsInput w))
                else [])
  /\ (tasks w1 = tasks w \/ tasks w1 = tasks w ++ [StartTimer])
  /\ processingRef w1 = true
  /\ (forall (w2 : World) (k : nat),
         processingRef w2 = true ->
         nth_error (tasks w2) k = Some StartTimer ->
         step (Fire k Elapsed) w2 = setTasks (removeNth k) w2)
  /\ (forall (w2 : World) (x y : QueueItem),
         find isPending (queue w2) = Some x ->
         In y (queue (setQueue (Updater.claim x) w2)) ->
         id y = id x -> status y = processing)
  /\ (forall es : list Event,
         singleLoop w -> forallb keepsGoing es = true ->
         liveLoops (run es w1) <= 1).
Proof.
  intros Href. cbv zeta.
  destruct (handleStart_flags now w) as [Hip Hpr].
  split; [|split; [|split; [|split; [|split]]]].
  - unfold step. rewrite commit_queue. cbn [handle]. unfold handleStart.
    destruct (JsString.truthy (cookie w)); cbn [negb];
      [|rewrite app_nil_r; reflexivity].
    destruct (promptLines (promptsInput w)) as [|l ls] eqn:Hl.
    + cbn [List.length Nat.eqb Nat.ltb Nat.leb andb newItems].
      rewrite app_nil_r. destruct (negb _); reflexivity.
    + reflexivity.
  - unfold step. rewrite commit_tasks. cbn [handle]. unfold handleStart.
    destruct (negb (JsString.truthy (cookie w))); [now left|].
    destruct (_ && _); [now left|].
    right. destruct (Nat.ltb 0 _); reflexivity.
  - unfold step. cbn [handle]. rewrite commit_processingRef by exact Hip. congruence.
  - intros w2 k Href2 Hk.
    rewrite (step_fire k Elapsed _ w2 _ Hk eq_refl).
    unfold startTimer. cbn [setTasks processingRef]. rewrite Href2. cbn [negb].
    now apply commit_same_flags.
  - intros w2 x y _ Hin Hid. cbn [setQueue queue] in Hin.
    unfold Updater.claim in Hin. apply in_map_iff in Hin.
    destruct Hin as [z [Hz _]].
    destruct (Nat.eqb_spec (id z) (id x)) as [E|E]; subst y; [reflexivity|].
    contradiction.
  - intros es Hone Hes.
    apply (run_singleLoop es (step (Start now) w));
      [apply step_singleLoop; [exact Hone | reflexivity] | exact Hes].
Qed.

Lemma C9_start_while_running_witness :
  processingRef Session.oneInFlight = true
  /\ (let w := setPromptsInput "a dog" Session.oneInFlight in
      queue (step (Start "10:00:05") w)
      = queue w ++ (if JsString.truthy (cookie w)
                    then newItems "10:00:05" (uuids w) (promptLines (promptsInput w))
                    else []))
  /\ singleLoop (setPromptsInput "a dog" Session.oneInFlight)
  /\ liveLoops (run [Start "10:00:06"; Fire 1 Elapsed; Fire 1 Elapsed]
                    (step (Start "10:00:05")
                          (setPromptsInput "a dog" Session.oneInFlight))) <= 1.
Proof.
  assert (H : processingRef (setPromptsInput "a dog" Session.oneInFlight) = true)
    by reflexivity.
  assert (H1 : singleLoop (setPromptsInput "a dog" Session.oneInFlight)).
  { split; [|split].
    - vm_compute. constructor.
    - intros _. reflexivity.
    - intros [E|[]]. discriminate. }
  split; [exact H|]. split.
  - exact (proj1 (C9_start_while_running "10:00:05" _ H)).
  - split; [exact H1|].
    exact (proj2 (proj2 (proj2 (proj2 (proj2
             (C9_start_while_running "10:00:05" _ H)))))
             [Start "10:00:06"; Fire 1 Elapsed; Fire 1 Elapsed] H1 eq_refl).
Defined.

Lemma promptLines_blank (input : string) :
  (forall line, In line (JsString.splitLines input) -> JsString.trim line = EmptyString) ->
  promptLines input = [].
Proof.
  unfold promptLines. intros H.
  induction (JsString.splitLines input) as [|l ls IH]; [reflexivity|].
  cbn [filter]. rewrite (H l) by now left. cbn.
  apply IH. intros line Hl. apply H. now right.
Qed.

Lemma no_pending_existsb (q : list QueueItem) :
  Forall (fun x => status x <> pending) q -> existsb isPending q = false.
Proof.
  induction 1 as [|x q Hx _ IH]; [reflexivity|].
  cbn. apply isPending_false in Hx. now rewrite Hx.
Qed.

(** C10: with an empty cookie, or with an input none of whose lines has
    anything but white space and a queue without [pending] record, START
    only shows an alert: the queue, the input, [isProcessing], [isPaused],
    both refs, the outstanding tasks and the identifier supply are exactly
    as before; no record is created and no timer is armed. *)
Theorem C10_start_rejected_leaves_world (now : string) (w : World) :
  cookie w = EmptyString
  \/ ((forall line, In line (JsString.splitLines (promptsInput w)) ->
                    JsString.trim line = EmptyString)
      /\ Forall (fun x => status x <> pending) (queue w)) ->
  let w1 := step (Start now) w in
  (exists msg, w1 = alert msg w)
  /\ queue w1 = queue w /\ promptsInput w1 = promptsInput w
  /\ isProcessing w1 = isProcessing w /\ isPaused w1 = isPaused w
  /\ processingRef w1 = processingRef w /\ pausedRef w1 = pausedRef w
  /\ tasks w1 = tasks w /\ uuids w1 = uuids w.
Proof.
  intros H. cbv zeta.
  assert (Hal : exists msg, step (Start now) w = alert msg w).
  { unfold step, handle, handleStart.
    destruct (JsString.truthy (cookie w)) eqn:Hc; cbn [negb].
    - destruct H as [H|[Hl Hq]].
      + apply truthy_false in H. congruence.
      + rewrite (promptLines_blank _ Hl), (no_pending_existsb _ Hq).
        cbn [List.length Nat.eqb negb andb].
        eexists. now apply commit_same_flags.
    - eexists. now apply commit_same_flags. }
  destruct Hal as [msg ->]. split; [now exists msg|].
  repeat split; reflexivity.
Qed.

Lemma C10_start_rejected_leaves_world_witness :
  (cookie (mount EmptyString) = EmptyString
   \/ ((forall line, In line (JsString.splitLines (promptsInput (mount EmptyString))) ->
                     JsString.trim line = EmptyString)
       /\ Forall (fun x => status x <> pending) (queue (mount EmptyString))))
  /\ queue (step (Start "10:00:00") (mount EmptyString)) = queue (mount EmptyString)
  /\ tasks (step (Start "10:00:00")
                 (setPromptsInput "   " (setCookie "cookie" Session.oneDone)))
     = [].
Proof.
  assert (H0 : cookie (mount EmptyString) = EmptyString
               \/ ((forall line, In line (JsString.splitLines (promptsInput (mount EmptyString))) ->
                                 JsString.trim line = EmptyString)
                   /\ Forall (fun x => status x <> pending) (queue (mount EmptyString))))
    by (left; reflexivity).
  assert (H1 : cookie (setPromptsInput "   " (setCookie "cookie" Session.oneDone)) = EmptyString
               \/ ((forall line,
                       In line (JsString.splitLines
                                  (promptsInput
                                     (setPromptsInput "   "
                                        (setCookie "cookie" Session.oneDone)))) ->
                       JsString.trim line = EmptyString)
                   /\ Forall (fun x => status x <> pending)
                             (queue (setPromptsInput "   "
                                       (setCookie "cookie" Session.oneDone))))).
  { right. split.
    - intros line [<-|[]]. reflexivity.
    - repeat constructor. cbn. discriminate. }
  split; [exact H0|]. split.
  - exact (proj1 (proj2 (C10_start_rejected_leaves_world "10:00:00" _ H0))).
  - exact (proj1 (proj2 (proj2 (proj2 (proj2 (proj2 (proj2 (proj2
            (C10_start_rejected_leaves_world "10:00:00" _ H1))))))))).
Defined.

(* ================================================================== *)
(** ** What holds in every reachable world *)

Lemma processNext_flags (w : World) :
  isProcessing (processNext w) = isProcessing w
  /\ isPaused (processNext w) = isPaused w
  /\ processingRef (processNext w) = processingRef w
  /\ pausedRef (processNext w) = pausedRef w.
Proof.
  unfold processNext.
  destruct (processingRef w) eqn:E1; cbn [negb]; [|rewrite E1; repeat split].
  destruct (pausedRef w) eqn:E2; [rewrite E1, E2; repeat split|].
  destruct (find isPending (queue w)); cbn; rewrite E1, E2; repeat split.
Qed.

Lemma map_id_map (f : QueueItem -> QueueItem) (q : list QueueItem) :
  (forall y, id (f y) = id y) -> map id (map f q) = map id q.
Proof. intros H. rewrite map_map. apply map_ext. exact H. Qed.

Lemma processNext_ids (w : World) :
  map id (queue (processNext w)) = map id (queue w)
  /\ uuids (processNext w) = uuids w.
Proof.
  unfold processNext.
  destruct (negb (processingRef w)); [split; reflexivity|].
  destruct (pausedRef w); [split; reflexivity|].
  destruct (find isPending (queue w)) as [p|]; cbn; [|split; reflexivity].
  split; [|reflexivity]. apply map_id_map. intros y.
  destruct (Nat.eqb (id y) (id p)); reflexivity.
Qed.

Lemma newItems_ids (now : string) (lines : list string) :
  forall n, map id (newItems now n lines) = seq n (List.length lines).
Proof.
  induction lines as [|l ls IH]; intros n; cbn; [reflexivity|].
  now rewrite IH.
Qed.

(** Every handler writes a ref together with its state, or leaves it. *)
Lemma handle_refs (e : Event) (w : World) :
  (processingRef (handle e w) = isProcessing (handle e w)
   \/ processingRef (handle e w) = processingRef w)
  /\ (pausedRef (handle e w) = isPaused (handle e w)
      \/ pausedRef (handle e w) = pausedRef w).
Proof.
  destruct w as [ck inp q ip ipd pr pdr tk uu al].
  destruct e as [s|s|now| | |i| |i|i p|i|c|k r]; cbn [handle queue tasks];
    try (split; right; reflexivity).
  - unfold handleStart. cbn [cookie promptsInput queue].
    destruct (negb (JsString.truthy ck)); [split; right; reflexivity|].
    destruct (_ && _); [split; right; reflexivity|].
    destruct (Nat.ltb 0 _); split; (right; reflexivity) || (left; reflexivity).
  - split; [left|right]; reflexivity.
  - destruct (showsRetry i q); [|split; right; reflexivity].
    unfold retrySingleItem. destruct pr; split; right; reflexivity.
  - unfold retryAllErrors. destruct pr; split; right; reflexivity.
  - destruct (showsEdit i q); split; right; reflexivity.
  - destruct (showsEditor i q); split; right; reflexivity.
  - destruct (showsEditor i q); split; right; reflexivity.
  - destruct c; split; right; reflexivity.
  - destruct (nth_error tk k) as [t|]; [|split; right; reflexivity].
    destruct t as [| |o|x|j| |]; destruct r as [|g|l|d]; cbn [resume];
      try (split; right; reflexivity).
    + unfold startTimer, processQueue.
      destruct pr; cbn [setTasks processingRef negb]; [split; right; reflexivity|].
      match goal with
      | |- context [processNext ?x] =>
          destruct (processNext_flags x) as [H1 [H2 [H3 H4]]]
      end.
      rewrite H1, H3, H4. split; [left|right]; reflexivity.
    + unfold retryTimer, processQueue.
      match goal with
      | |- context [processNext ?x] =>
          destruct (processNext_flags x) as [H1 [H2 [H3 H4]]]
      end.
      rewrite H1, H3, H4. split; [left|right]; reflexivity.
    + destruct o; split; right; reflexivity.
    + destruct g as [[|] u e|m]; split; right; reflexivity.
    + destruct l as [[|f fs]|]; split; right; reflexivity.
    + match goal with
      | |- context [processNext ?x] =>
          destruct (processNext_flags x) as [H1 [H2 [H3 H4]]]
      end.
      rewrite H3, H4. split; right; reflexivity.
    + destruct d as [[|]|]; split; right; reflexivity.
Qed.

(** Every handler keeps the ids in place, except [handleStart], which
    appends freshly drawn ones. *)
Lemma handle_ids (e : Event) (w : World) :
  (map id (queue (handle e w)) = map id (queue w) /\ uuids (handle e w) = uuids w)
  \/ (exists n, map id (queue (handle e w)) = map id (queue w) ++ seq (uuids w) n
                /\ uuids (handle e w) = uuids w + n).
Proof.
  assert (Hmap : forall f : QueueItem -> QueueItem,
             (forall y, id (f y) = id y) ->
             map id (queue (setQueue (map f) w)) = map id (queue w))
    by (intros f Hf; apply map_id_map, Hf).
  destruct e as [s|s|now| | |i| |i|i p|i|c|k r]; cbn [handle];
    try (left; split; reflexivity).
  - unfold handleStart.
    destruct (negb (JsString.truthy (cookie w))); [left; split; reflexivity|].
    destruct (_ && _); [left; split; reflexivity|].
    destruct (Nat.ltb 0 _); [|left; split; reflexivity].
    right. exists (List.length (promptLines (promptsInput w))). cbn.
    now rewrite map_app, newItems_ids.
  - left. destruct (showsRetry i (queue w)); [|split; reflexivity].
    unfold retrySingleItem.
    destruct (processingRef w); cbn; (split; [|reflexivity]);
      apply map_id_map; intros y; destruct (Nat.eqb (id y) i); reflexivity.
  - left. unfold retryAllErrors.
    destruct (processingRef w); cbn; (split; [|reflexivity]);
      apply map_id_map; intros y; destruct (isError y); reflexivity.
  - left. destruct (showsEdit i (queue w)); [|split; reflexivity].
    cbn. split; [|reflexivity].
    apply map_id_map; intros y; destruct (Nat.eqb (id y) i); reflexivity.
  - left. destruct (showsEditor i (queue w)); [|split; reflexivity].
    cbn. split; [|reflexivity].
    apply map_id_map; intros y; destruct (Nat.eqb (id y) i); reflexivity.
  - left. destruct (showsEditor i (queue w)); [|split; reflexivity].
    cbn. split; [|reflexivity].
    apply map_id_map; intros y; destruct (Nat.eqb (id y) i); reflexivity.
  - left. destruct c; split; reflexivity.
  - left. destruct (nth_error (tasks w) k) as [t|]; [|split; reflexivity].
    destruct t as [| |o|x|j| |]; destruct r as [|g|l|d]; cbn [resume];
      try (split; reflexivity).
    + unfold startTimer, processQueue.
      destruct (negb _); [|split; reflexivity].
      match goal with
      | |- context [processNext ?x] =>
          destruct (processNext_ids x) as [H1 H2]; rewrite H1, H2
      end; split; reflexivity.
    + unfold retryTimer, processQueue.
      match goal with
      | |- context [processNext ?x] =>
          destruct (processNext_ids x) as [H1 H2]; rewrite H1, H2
      end; split; reflexivity.
    + destruct o; split; reflexivity.
    + destruct g as [[|] u e|m]; cbn; (split; [|reflexivity]);
        apply map_id_map; intros y; destruct (Nat.eqb (id y) (id x)); reflexivity.
    + destruct l as [[|f fs]|]; cbn; (split; [|reflexivity]); try reflexivity.
      apply map_id_map; intros y; destruct (_ && _); reflexivity.
    + match goal with
      | |- context [processNext ?x] =>
          destruct (processNext_ids x) as [H1 H2]; rewrite H1, H2
      end; split; reflexivity.
    + destruct d as [[|]|]; cbn [afterDelete]; try (split; reflexivity).
      cbn [setQueue queue uuids]. rewrite dropDone_forgetImages.
      split; [|reflexivity]. apply map_id_map. reflexivity.
Qed.

Lemma step_synced (e : Event) (w : World) : synced w -> synced (step e w).
Proof.
  intros H. destruct (handle_refs e w) as [H1 H2].
  now apply commit_synced.
Qed.

Lemma step_freshIds (e : Event) (w : World) : freshIds w -> freshIds (step e w).
Proof.
  intros [Hnd Hlt]. unfold freshIds, step.
  rewrite commit_queue.
  replace (uuids (commit w (handle e w))) with (uuids (handle e w))
    by (unfold commit; destruct (Bool.eqb _ _); destruct (Bool.eqb _ _); reflexivity).
  destruct (handle_ids e w) as [[Hq Hu]|[n [Hq Hu]]]; rewrite Hq, Hu.
  - split; assumption.
  - split.
    + apply NoDup_app; [exact Hnd | apply seq_NoDup |].
      intros a Ha Hs. apply in_seq in Hs.
      rewrite Forall_forall in Hlt. specialize (Hlt a Ha). lia.
    + apply Forall_app. split.
      * eapply Forall_impl; [|exact Hlt]. cbn. intros a Ha. lia.
      * apply Forall_forall. intros a Ha. apply in_seq in Ha. lia.
Qed.

(** X1: whatever the user and the environment do from the mounted
    component, the refs mirror the state after every step and the ids of
    the queue are pairwise distinct. *)
Lemma reachable_synced_fresh (c : string) (es : list Event) :
  synced (run es (mount c)) /\ NoDup (map id (queue (run es (mount c)))).
Proof.
  assert (H : forall w, synced w /\ freshIds w ->
                        synced (run es w) /\ freshIds (run es w)).
  { induction es as [|e es IH]; intros w [Hs Hf]; cbn; [auto|].
    apply IH. split; [now apply step_synced | now apply step_freshIds]. }
  destruct (H (mount c)) as [Hs [Hnd _]].
  - split; [split; reflexivity|]. split; cbn; constructor.
  - auto.
Qed.

(* ================================================================== *)
(** ** One job in flight, as long as nobody stops or retries *)

Lemma removeNth_or {A : Type} (l : list A) :
  forall (k : nat) (t a : A),
    nth_error l k = Some t -> In a l -> a = t \/ In a (removeNth k l).
Proof.
  unfold removeNth.
  induction l as [|b l IH]; intros [|k] t a Hk Ha; cbn in Hk; try discriminate.
  - injection Hk as ->. destruct Ha as [->|Ha]; [now left | now right].
  - destruct Ha as [->|Ha]; [right; now left|].
    destruct (IH k t a Hk Ha) as [H|H]; [now left | right; now right].
Qed.

(** Beside the loop task that resumes there is no other loop task. *)
Lemma no_other_loop (w : World) (k : nat) (t a : Task) :
  liveLoops w <= 1 ->
  nth_error (tasks w) k = Some t -> isLoopTask t = true ->
  In a (removeNth k (tasks w)) -> isLoopTask a = false.
Proof.
  intros Hle Hk Ht Ha.
  pose proof (removeNth_count isLoopTask (tasks w) k t Hk) as Hc.
  fold (liveLoops w) in Hc. rewrite Ht in Hc.
  destruct (isLoopTask a) eqn:E; [|reflexivity].
  assert (Hin : In a (filter isLoopTask (removeNth k (tasks w))))
    by (apply filter_In; auto).
  destruct (filter isLoopTask (removeNth k (tasks w))); [contradiction|].
  cbn in Hc. lia.
Qed.

Lemma idle_no_loop (w : World) (a : Task) :
  liveLoops w = 0 -> In a (tasks w) -> isLoopTask a = false.
Proof.
  unfold liveLoops. intros H0 Ha.
  destruct (isLoopTask a) eqn:E; [|reflexivity].
  assert (Hin : In a (filter isLoopTask (tasks w))) by (apply filter_In; auto).
  destruct (filter isLoopTask (tasks w)); [contradiction | discriminate].
Qed.

(** The loop task that resumes is the one every [processing] record is
    accounted to. *)
Lemma accounted_to_resumed (w : World) (k : nat) (t : Task) (x : QueueItem) :
  liveLoops w <= 1 -> accounted w ->
  nth_error (tasks w) k = Some t -> isLoopTask t = true ->
  In x (queue w) -> status x = processing ->
  exists y, (t = NextItem (Some y) \/ t = Generating y) /\ id y = id x.
Proof.
  intros Hle Hacc Hk Ht Hx Hs.
  destruct (Hacc x Hx Hs) as [y [[Hy|Hy] Hid]]; exists y; (split; [|exact Hid]).
  - destruct (removeNth_or _ k t _ Hk Hy) as [H|H]; [now left|].
    apply (no_other_loop w k t _ Hle Hk Ht) in H. discriminate.
  - destruct (removeNth_or _ k t _ Hk Hy) as [H|H]; [now right|].
    apply (no_other_loop w k t _ Hle Hk Ht) in H. discriminate.
Qed.

(** Looking for the next item when no record is [processing]. *)
Lemma processNext_accounted (w : World) :
  (forall x, In x (queue w) -> status x <> processing) ->
  accounted (processNext w).
Proof.
  intros Hnone. unfold processNext.
  assert (Hw : accounted w) by (intros x Hx Hs; exfalso; now apply (Hnone x)).
  destruct (negb (processingRef w)); [exact Hw|].
  destruct (pausedRef w); [exact Hw|].
  destruct (find isPending (queue w)) as [p|].
  - intros x Hx Hs. cbn [spawn setTasks setQueue queue tasks] in *.
    unfold Updater.claim in Hx. apply in_map_iff in Hx.
    destruct Hx as [x0 [Hx0 Hin]].
    destruct (Nat.eqb_spec (id x0) (id p)) as [E|E]; subst x.
    + exists p. split; [left; apply in_or_app; right; now left | now rewrite <- E].
    + exfalso. now apply (Hnone x0).
  - intros x Hx Hs. exfalso. now apply (Hnone x).
Qed.

(** A world that differs by records that were not claimed and keeps the
    loop tasks. *)
Lemma accounted_carried (w a : World) :
  accounted w ->
  (forall x, In x (queue a) -> status x = processing ->
             exists x0, In x0 (queue w) /\ status x0 = processing /\ id x0 = id x) ->
  (forall t, In t (tasks w) -> isLoopTask t = true -> In t (tasks a)) ->
  accounted a.
Proof.
  intros Hacc Hq Ht x Hx Hs.
  destruct (Hq x Hx Hs) as [x0 [Hx0 [Hs0 Hid]]].
  destruct (Hacc x0 Hx0 Hs0) as [y [[Hy|Hy] Hidy]]; exists y;
    (split; [|congruence]); [left|right]; now apply Ht.
Qed.

Lemma map_keeps_claims (f : QueueItem -> QueueItem) (q : list QueueItem) :
  (forall y, id (f y) = id y /\ (status (f y) = processing -> status y = processing)) ->
  forall x, In x (map f q) -> status x = processing ->
            exists x0, In x0 q /\ status x0 = processing /\ id x0 = id x.
Proof.
  intros Hf x Hx Hs. apply in_map_iff in Hx. destruct Hx as [x0 [<- Hin]].
  destruct (Hf x0) as [Hid Hst]. exists x0. auto.
Qed.

Lemma handle_accounted (e : Event) (w : World) :
  singleLoop w -> accounted w -> keepsGoing e = true ->
  accounted (handle e w).
Proof.
  intros [Hle [Href Hno]] Hacc He.
  assert (Hid : forall q x, In x q -> status x = processing ->
                            exists x0, In x0 q /\ status x0 = processing /\ id x0 = id x)
    by (intros q x Hx Hs; exists x; auto).
  destruct e as [s|s|now| | |i| |i|i p|i|c|k r]; try discriminate; cbn [handle];
    try exact Hacc.
  - (* START *)
    unfold handleStart.
    destruct (negb (JsString.truthy (cookie w))); [exact Hacc|].
    destruct (_ && _); [exact Hacc|].
    apply (accounted_carried w); [exact Hacc| |].
    + intros x Hx Hs. destruct (Nat.ltb 0 _); cbn in Hx; [|now apply Hid].
      apply in_app_or in Hx. destruct Hx as [Hx|Hx]; [now apply Hid|].
      exfalso. clear - Hx Hs.
      revert Hx. generalize (uuids w).
      induction (promptLines (promptsInput w)) as [|l ls IH]; intros n Hx;
        cbn in Hx; [contradiction|].
      destruct Hx as [Hx|Hx]; [subst x; discriminate | now apply (IH (S n))].
    + intros t Ht _. destruct (Nat.ltb 0 _); cbn; apply in_or_app; now left.
  - (* Edit *)
    destruct (showsEdit i (queue w)); [|exact Hacc].
    apply (accounted_carried w); [exact Hacc| |auto].
    apply map_keeps_claims. intros y. destruct (Nat.eqb (id y) i); auto.
  - destruct (showsEditor i (queue w)); [|exact Hacc].
    apply (accounted_carried w); [exact Hacc| |auto].
    apply map_keeps_claims. intros y. destruct (Nat.eqb (id y) i); auto.
  - destruct (showsEditor i (queue w)); [|exact Hacc].
    apply (accounted_carried w); [exact Hacc| |auto].
    apply map_keeps_claims. intros y. destruct (Nat.eqb (id y) i); auto.
  - (* Clear All *)
    destruct c; [|exact Hacc].
    apply (accounted_carried w); [exact Hacc|apply Hid|].
    intros t Ht _. cbn. apply in_or_app; now left.
  - (* a task resumes *)
    destruct (nth_error (tasks w) k) as [t|] eqn:Hk; [|exact Hacc].
    assert (Hkeep : forall t', In t' (tasks w) -> isLoopTask t' = true ->
                               isLoopTask t = false -> In t' (removeNth k (tasks w))).
    { intros t' Ht' Hl Hl0.
      destruct (removeNth_or _ k t t' Hk Ht') as [->|H]; [congruence | exact H]. }
    assert (Hquiet : (forall y, t <> NextItem (Some y) /\ t <> Generating y) ->
                     isLoopTask t = true ->
                     forall x, In x (queue w) -> status x <> processing).
    { intros Hnot Hl x Hx Hs.
      destruct (accounted_to_resumed w k t x Hle Hacc Hk Hl Hx Hs) as [y [[H|H] _]];
        destruct (Hnot y); contradiction. }
    destruct t as [| |o|x|j| |]; destruct r as [|g|l|d]; cbn [resume];
      try exact Hacc.
    + (* the timer of START *)
      unfold startTimer, processQueue. cbn [setTasks processingRef].
      destruct (processingRef w) eqn:E; cbn [negb].
      * apply (accounted_carried w); [exact Hacc|apply Hid|].
        intros t' Ht' Hl. now apply Hkeep.
      * apply processNext_accounted. cbn. intros x Hx Hs.
        assert (H0 : liveLoops w = 0).
        { destruct (Nat.eq_dec (liveLoops w) 1) as [H1|H1]; [|lia].
          apply Href in H1. congruence. }
        destruct (Hacc x Hx Hs) as [y [[Hy|Hy] _]];
          apply (idle_no_loop w _ H0) in Hy; discriminate.
    + exfalso. apply Hno. eapply nth_error_In; eauto.
    + (* the item is known *)
      destruct o as [x|]; cbn [afterNextItem].
      * intros x1 Hx1 Hs1. cbn in Hx1.
        destruct (accounted_to_resumed w k _ x1 Hle Hacc Hk eq_refl Hx1 Hs1)
          as [y [[H|H] Hy]]; [|discriminate].
        injection H as <-. exists x. split; [|exact Hy].
        right. cbn. apply in_or_app. right. now left.
      * intros x1 Hx1 Hs1. cbn in Hx1. exfalso.
        refine (Hquiet _ eq_refl x1 Hx1 Hs1). intros y. split; discriminate.
    + (* the generation ends: nothing is left [processing] *)
      assert (Hall : forall x1, In x1 (queue w) -> status x1 = processing ->
                                id x1 = id x).
      { intros x1 Hx1 Hs1.
        destruct (accounted_to_resumed w k _ x1 Hle Hacc Hk eq_refl Hx1 Hs1)
          as [y [[H|H] Hy]]; [discriminate|]. injection H as <-. now symmetry. }
      destruct g as [[|] u e|m];
        cbn [afterGenerate fetchLatestImageFor scheduleNext];
        intros x1 Hx1 Hs1; exfalso; cbn in Hx1;
        apply in_map_iff in Hx1; destruct Hx1 as [x0 [Hx0 Hin]];
        (destruct (Nat.eqb_spec (id x0) (id x)) as [E|E]; subst x1;
         [discriminate | apply E; now apply Hall]).
    + (* the listing ends *)
      assert (Hq : forall x1, In x1 (queue w) -> status x1 <> processing)
        by (apply Hquiet; [intros y; split; discriminate | reflexivity]).
      destruct l as [[|f fs]|]; cbn [afterListing scheduleNext];
        intros x1 Hx1 Hs1; exfalso; cbn in Hx1; try (now apply (Hq x1)).
      apply in_map_iff in Hx1. destruct Hx1 as [x0 [Hx0 Hin]].
      apply (Hq x0 Hin). destruct (_ && _); subst x1; exact Hs1.
    + (* the delay is over *)
      apply processNext_accounted. cbn.
      apply Hquiet; [intros y; split; discriminate | reflexivity].
    + (* the deletion ends *)
      destruct d as [[|]|]; cbn [afterDelete].
      * apply (accounted_carried w); [exact Hacc| |].
        -- cbn [setQueue queue]. rewrite dropDone_forgetImages.
           apply map_keeps_claims. intros y. split; [reflexivity|].
           destruct y as [i p s u e t ed]; destruct s; cbn; auto; discriminate.
        -- intros t' Ht' Hl. now apply Hkeep.
      * apply (accounted_carried w); [exact Hacc|apply Hid|].
        intros t' Ht' Hl. now apply Hkeep.
      * apply (accounted_carried w); [exact Hacc|apply Hid|].
        intros t' Ht' Hl. now apply Hkeep.
Qed.

Lemma loop_task_unique (w : World) (a b : Task) :
  liveLoops w <= 1 ->
  In a (tasks w) -> In b (tasks w) ->
  isLoopTask a = true -> isLoopTask b = true -> a = b.
Proof.
  unfold liveLoops. intros Hle Ha Hb Hla Hlb.
  assert (Ha' : In a (filter isLoopTask (tasks w))) by (apply filter_In; auto).
  assert (Hb' : In b (filter isLoopTask (tasks w))) by (apply filter_In; auto).
  destruct (filter isLoopTask (tasks w)) as [|c [|d l]]; cbn in *.
  - contradiction.
  - destruct Ha' as [<-|[]], Hb' as [<-|[]]. reflexivity.
  - lia.
Qed.

Lemma at_most_one_by_id (P : QueueItem -> bool) (q : list QueueItem) :
  NoDup (map id q) ->
  (forall x1 x2, In x1 q -> In x2 q -> P x1 = true -> P x2 = true -> id x1 = id x2) ->
  List.length (filter P q) <= 1.
Proof.
  induction q as [|a q IH]; intros Hnd Hsame; cbn; [lia|].
  inversion Hnd as [|? ? Hnotin Hnd']; subst.
  destruct (P a) eqn:Ea.
  - assert (Hnil : filter P q = []).
    { destruct (filter P q) as [|b l] eqn:Ef; [reflexivity|]. exfalso.
      assert (Hb : In b (filter P q)) by (rewrite Ef; now left).
      apply filter_In in Hb. destruct Hb as [Hb Pb].
      apply Hnotin. rewrite (Hsame a b); [now apply in_map| now left | now right
                                          | exact Ea | exact Pb]. }
    rewrite Hnil. cbn. lia.
  - apply IH; [exact Hnd'|]. intros x1 x2 H1 H2. apply Hsame; now right.
Qed.

(** With a single loop, accounted records and distinct ids, at most one
    record is [processing]. *)
Lemma accounted_at_most_one (w : World) :
  singleLoop w -> accounted w -> NoDup (map id (queue w)) ->
  countStatus processing (queue w) <= 1.
Proof.
  intros [Hle _] Hacc Hnd. unfold countStatus.
  apply at_most_one_by_id; [exact Hnd|].
  intros x1 x2 H1 H2 P1 P2.
  apply Status_eqb_eq in P1, P2.
  destruct (Hacc x1 H1 P1) as [y1 [Hy1 Hid1]].
  destruct (Hacc x2 H2 P2) as [y2 [Hy2 Hid2]].
  assert (E : y1 = y2).
  { destruct Hy1 as [Hy1|Hy1], Hy2 as [Hy2|Hy2];
      pose proof (loop_task_unique w _ _ Hle Hy1 Hy2 eq_refl eq_refl) as E;
      congruence. }
  congruence.
Qed.

(** X2: from the mounted component, whatever is typed, edited, cleared
    or started and whatever tasks run in whatever order: as long as nobody
    pauses, stops or retries, at most one record is [processing] and at
    most one loop is alive. *)
Theorem one_in_flight_while_nobody_stops (c : string) (es : list Event) :
  forallb keepsGoing es = true ->
  countStatus processing (queue (run es (mount c))) <= 1
  /\ liveLoops (run es (mount c)) <= 1.
Proof.
  intros Hes.
  assert (H : forall w, singleLoop w /\ accounted w /\ freshIds w ->
                        forallb keepsGoing es = true ->
                        singleLoop (run es w) /\ accounted (run es w)
                        /\ freshIds (run es w)).
  { clear Hes. induction es as [|e es IH]; intros w [H1 [H2 H3]] Hes; cbn in *; [auto|].
    apply andb_prop in Hes. destruct Hes as [He Hes].
    apply IH; [|exact Hes]. split; [now apply step_singleLoop|]. split.
    - intros x Hx Hs. unfold step in *. rewrite commit_queue in Hx.
      rewrite commit_tasks. now apply (handle_accounted e w H1 H2 He x).
    - now apply step_freshIds. }
  destruct (H (mount c)) as [H1 [H2 [H3 _]]]; [|exact Hes|].
  - split; [|split].
    + split; [cbn; lia|]. split; [intros H0; discriminate | intros []].
    + intros x [].
    + split; cbn; constructor.
  - split; [now apply accounted_at_most_one | apply H1].
Qed.

Lemma one_in_flight_while_nobody_stops_witness :
  forallb keepsGoing
          [TypePrompts (Session.twoLines "a cat" "a dog"); Start "10:00:00";
           Start "10:00:01"; Fire 0 Elapsed; Fire 0 Elapsed; Fire 0 Elapsed] = true
  /\ countStatus processing
       (queue (run [TypePrompts (Session.twoLines "a cat" "a dog"); Start "10:00:00";
                    Start "10:00:01"; Fire 0 Elapsed; Fire 0 Elapsed; Fire 0 Elapsed]
                   (mount "cookie"))) <= 1.
Proof.
  assert (H : forallb keepsGoing
                      [TypePrompts (Session.twoLines "a cat" "a dog"); Start "10:00:00";
                       Start "10:00:01"; Fire 0 Elapsed; Fire 0 Elapsed; Fire 0 Elapsed]
              = true) by reflexivity.
  split; [exact H|].
  exact (proj1 (one_in_flight_while_nobody_stops "cookie" _ H)).
Defined.

(* ================================================================== *)
(** ** The queue only grows *)

Lemma sameRecord_refl (a : QueueItem) : sameRecord a a.
Proof. split; reflexivity. Qed.

Lemma sameRecord_trans (a b c : QueueItem) :
  sameRecord a b -> sameRecord b c -> sameRecord a c.
Proof. intros [H1 H2] [H3 H4]. split; congruence. Qed.

Lemma Forall2_sameRecord_map (f : QueueItem -> QueueItem) (q : list QueueItem) :
  (forall y, id (f y) = id y /\ timestamp (f y) = timestamp y) ->
  Forall2 sameRecord q (map f q).
Proof. intros H. apply Forall2_map_self. intros a _. apply H. Qed.

Lemma processNext_records (w : World) :
  Forall2 sameRecord (queue w) (queue (processNext w)).
Proof.
  unfold processNext.
  destruct (negb (processingRef w)); [apply Forall2_refl_on, sameRecord_refl|].
  destruct (pausedRef w); [apply Forall2_refl_on, sameRecord_refl|].
  destruct (find isPending (queue w)) as [p|];
    [|apply Forall2_refl_on, sameRecord_refl].
  apply Forall2_sameRecord_map. intros y.
  destruct (Nat.eqb (id y) (id p)); split; reflexivity.
Qed.

(** Every handler keeps the records it finds, in their order, and at most
    appends new ones. *)
Lemma handle_records (e : Event) (w : World) :
  exists kept added,
    queue (handle e w) = kept ++ added /\ Forall2 sameRecord (queue w) kept.
Proof.
  assert (Hsame : forall a : World,
             Forall2 sameRecord (queue w) (queue a) ->
             exists kept added,
               queue a = kept ++ added /\ Forall2 sameRecord (queue w) kept).
  { intros a H. exists (queue a), []. now rewrite app_nil_r. }
  assert (Hrefl : Forall2 sameRecord (queue w) (queue w))
    by apply Forall2_refl_on, sameRecord_refl.
  destruct e as [s|s|now| | |i| |i|i p|i|c|k r]; cbn [handle];
    try (apply Hsame; exact Hrefl).
  - unfold handleStart.
    destruct (negb (JsString.truthy (cookie w))); [apply Hsame; exact Hrefl|].
    destruct (_ && _); [apply Hsame; exact Hrefl|].
    destruct (Nat.ltb 0 _); [|apply Hsame; exact Hrefl].
    exists (queue w), (newItems now (uuids w) (promptLines (promptsInput w))).
    split; [reflexivity | exact Hrefl].
  - destruct (showsRetry i (queue w)); [|apply Hsame; exact Hrefl].
    apply Hsame. unfold retrySingleItem.
    destruct (processingRef w); cbn; apply Forall2_sameRecord_map; intros y;
      destruct (Nat.eqb (id y) i); split; reflexivity.
  - apply Hsame. unfold retryAllErrors.
    destruct (processingRef w); cbn; apply Forall2_sameRecord_map; intros y;
      destruct (isError y); split; reflexivity.
  - destruct (showsEdit i (queue w)); [|apply Hsame; exact Hrefl].
    apply Hsame. cbn. apply Forall2_sameRecord_map; intros y;
      destruct (Nat.eqb (id y) i); split; reflexivity.
  - destruct (showsEditor i (queue w)); [|apply Hsame; exact Hrefl].
    apply Hsame. cbn. apply Forall2_sameRecord_map; intros y;
      destruct (Nat.eqb (id y) i); split; reflexivity.
  - destruct (showsEditor i (queue w)); [|apply Hsame; exact Hrefl].
    apply Hsame. cbn. apply Forall2_sameRecord_map; intros y;
      destruct (Nat.eqb (id y) i); split; reflexivity.
  - apply Hsame. destruct c; exact Hrefl.
  - apply Hsame.
    destruct (nth_error (tasks w) k) as [t|]; [|exact Hrefl].
    destruct t as [| |o|x|j| |]; destruct r as [|g|l|d]; cbn [resume];
      try exact Hrefl.
    + unfold startTimer, processQueue.
      destruct (negb _); [|exact Hrefl].
      match goal with |- context [processNext ?x] => apply (processNext_records x) end.
    + unfold retryTimer, processQueue.
      match goal with |- context [processNext ?x] => apply (processNext_records x) end.
    + destruct o; exact Hrefl.
    + destruct g as [[|] u e|m]; cbn; apply Forall2_sameRecord_map; intros y;
        destruct (Nat.eqb (id y) (id x)); split; reflexivity.
    + destruct l as [[|f fs]|]; cbn; try exact Hrefl.
      apply Forall2_sameRecord_map; intros y; destruct (_ && _); split; reflexivity.
    + match goal with |- context [processNext ?x] => apply (processNext_records x) end.
    + destruct d as [[|]|]; cbn [afterDelete]; try exact Hrefl.
      cbn [setQueue queue]. rewrite dropDone_forgetImages.
      apply Forall2_sameRecord_map. intros y. split; reflexivity.
Qed.

(** X3: no sequence of user actions and task resumptions ever removes or
    reorders a record, or changes its id or creation time: the queue after
    the run is the queue before, record by record, followed by what START
    appended in between.  (In particular Clear All removes nothing.) *)
Theorem queue_never_loses_a_record (es : list Event) (w : World) :
  exists kept added,
    queue (run es w) = kept ++ added
    /\ Forall2 sameRecord (queue w) kept
    /\ List.length (queue w) <= List.length (queue (run es w)).
Proof.
  assert (H : exists kept added,
             queue (run es w) = kept ++ added /\ Forall2 sameRecord (queue w) kept).
  { revert w. induction es as [|e es IH]; intros w; cbn [run fold_left].
    - exists (queue w), []. rewrite app_nil_r.
      split; [reflexivity | apply Forall2_refl_on, sameRecord_refl].
    - destruct (handle_records e w) as [k1 [a1 [Hq1 Hk1]]].
      destruct (IH (step e w)) as [k2 [a2 [Hq2 Hk2]]].
      unfold step in Hk2 at 1. rewrite commit_queue, Hq1 in Hk2.
      apply Forall2_app_inv_l in Hk2.
      destruct Hk2 as [k2a [k2b [Ha [Hb ->]]]].
      exists k2a, (k2b ++ a2). split.
      + change (run es (step e w)) with (fold_left (fun acc e0 => step e0 acc) es (step e w)) in Hq2.
        rewrite Hq2. now rewrite app_assoc.
      + eapply Forall2_trans_on; [exact sameRecord_trans | exact Hk1 | exact Ha]. }
  destruct H as [kept [added [Hq Hk]]]. exists kept, added.
  split; [exact Hq|]. split; [exact Hk|].
  rewrite Hq, length_app, <- (Forall2_length Hk). lia.
Qed.

(* ================================================================== *)
(** ** Stop *)

Lemma processNext_stopped (w : World) :
  processingRef w = false -> processNext w = w.
Proof. intros H. unfold processNext. now rewrite H. Qed.

(** A resumed task that is not a launch timer claims nothing while
    [processingRef] is off, turns nothing on and arms no launch timer. *)
Lemma resume_stopped (t : Task) (r : Reply) (w w' : World) :
  processingRef w = false -> isProcessing w = false ->
  t <> StartTimer -> t <> RetryTimer ->
  resume t r w = Some w' ->
  Forall2 notClaimed (queue w) (queue w')
  /\ processingRef w' = false /\ isProcessing w' = false
  /\ (forall t', In t' (tasks w') ->
                 In t' (tasks w) \/ (t' <> StartTimer /\ t' <> RetryTimer)).
Proof.
  intros Hp Hi Hs Hr Hres.
  assert (Hsame : Forall2 notClaimed (queue w) (queue w))
    by (apply Forall2_refl_on, notClaimed_refl).
  assert (Hadd : forall (t0 : Task) (a : World),
             t0 <> StartTimer -> t0 <> RetryTimer -> tasks a = tasks w ->
             forall t', In t' (tasks (spawn t0 a)) ->
                        In t' (tasks w) \/ (t' <> StartTimer /\ t' <> RetryTimer)).
  { intros t0 a H1 H2 Ha t' Ht'. cbn in Ht'. rewrite Ha in Ht'.
    apply in_app_or in Ht'. destruct Ht' as [H|[<-|[]]]; [now left | now right]. }
  destruct t as [| |o|x|j| |]; destruct r as [|g|l|d]; try discriminate;
    try contradiction; cbn [resume] in Hres; injection Hres as <-.
  - destruct o as [x|]; cbn [afterNextItem].
    + repeat split; auto. apply Hadd; [discriminate..|reflexivity].
    + repeat split; auto.
  - destruct g as [s u e|m]; [destruct s|];
      cbn [afterGenerate fetchLatestImageFor scheduleNext];
      (split; [cbn; apply Forall2_map_self; intros a _;
               destruct (Nat.eqb (id a) (id x)); split; cbn; auto; discriminate|]);
      (split; [exact Hp|]); (split; [exact Hi|]);
      apply Hadd; try discriminate; reflexivity.
  - destruct l as [[|f fs]|]; cbn [afterListing scheduleNext];
      (split; [cbn; try exact Hsame|]);
      try (split; [exact Hp|]; split; [exact Hi|];
           apply Hadd; try discriminate; reflexivity).
    apply Forall2_map_self. intros a _.
    destruct (Nat.eqb (id a) j && isDone a); split; cbn; auto.
  - rewrite processNext_stopped by exact Hp. repeat split; auto.
  - destruct d as [[|]|]; cbn [afterDelete]; try (repeat split; auto; fail).
    split; [|repeat split; auto].
    cbn [setQueue queue]. rewrite dropDone_forgetImages.
    apply Forall2_map_self. intros a _.
    split; [reflexivity|]. destruct a as [i p s u e t ed]; destruct s; cbn; auto;
      discriminate.
Qed.

Lemma step_fire_stopped (k : nat) (r : Reply) (w : World) :
  processingRef w = false -> isProcessing w = false -> noLaunchTimer (tasks w) ->
  Forall2 notClaimed (queue w) (queue (step (Fire k r) w))
  /\ processingRef (step (Fire k r) w) = false
  /\ isProcessing (step (Fire k r) w) = false
  /\ noLaunchTimer (tasks (step (Fire k r) w)).
Proof.
  intros Hp Hi [Hs Hr]. unfold step, handle.
  assert (Hsame : Forall2 notClaimed (queue w) (queue w))
    by (apply Forall2_refl_on, notClaimed_refl).
  destruct (nth_error (tasks w) k) as [t|] eqn:Hk;
    [destruct (resume t r (setTasks (removeNth k) w)) as [w'|] eqn:Hres|];
    try (rewrite commit_same_flags by reflexivity; repeat split; auto; fail).
  assert (Ht1 : t <> StartTimer)
    by (intros ->; apply Hs; eapply nth_error_In; eauto).
  assert (Ht2 : t <> RetryTimer)
    by (intros ->; apply Hr; eapply nth_error_In; eauto).
  destruct (resume_stopped t r (setTasks (removeNth k) w) w' Hp Hi Ht1 Ht2 Hres)
    as [Hq [Hp' [Hi' Ht']]].
  rewrite commit_same_flags.
  - split; [exact Hq|]. split; [exact Hp'|]. split; [exact Hi'|].
    split; intros Hin; destruct (Ht' _ Hin) as [H|[H1 H2]]; try congruence;
      cbn in H; apply removeNth_In in H; contradiction.
  - congruence.
  - destruct t as [| |o|x|j| |]; destruct r as [|g|l|d]; try discriminate;
      try contradiction; cbn [resume] in Hres; injection Hres as <-;
      try reflexivity.
    + destruct o; reflexivity.
    + destruct g as [[|] u e|m]; reflexivity.
    + destruct l as [[|f fs]|]; reflexivity.
    + rewrite processNext_stopped by exact Hp. reflexivity.
    + destruct d as [[|]|]; reflexivity.
Qed.

Lemma run_firings_stopped (fs : list (nat * Reply)) :
  forall w : World,
    processingRef w = false -> isProcessing w = false -> noLaunchTimer (tasks w) ->
    Forall2 notClaimed (queue w) (queue (run (firings fs) w))
    /\ processingRef (run (firings fs) w) = false
    /\ isProcessing (run (firings fs) w) = false.
Proof.
  induction fs as [|[k r] fs IH]; intros w Hp Hi Ht; cbn.
  - split; [apply Forall2_refl_on, notClaimed_refl | auto].
  - destruct (step_fire_stopped k r w Hp Hi Ht) as [Hq [Hp' [Hi' Ht']]].
    destruct (IH (step (Fire k r) w) Hp' Hi' Ht') as [Hq2 Hrest].
    split; [|exact Hrest].
    eapply Forall2_trans_on; [exact notClaimed_trans | exact Hq | exact Hq2].
Qed.

(** X4: STOP turns [isProcessing], [isPaused] and [processingRef] off at
    once.  If no launch timer (of START or of a retry) is armed at that
    moment, then whatever tasks run afterwards and whatever the services
    answer, as long as the user does nothing else, no record is claimed
    and the component stays stopped. *)
Theorem stop_halts_intake (w : World) :
  synced w -> noLaunchTimer (tasks w) ->
  let w1 := step Stop w in
  isProcessing w1 = false /\ isPaused w1 = false
  /\ processingRef w1 = false /\ pausedRef w1 = false
  /\ queue w1 = queue w /\ tasks w1 = tasks w
  /\ forall fs : list (nat * Reply),
      let w' := run (firings fs) w1 in
      Forall2 notClaimed (queue w1) (queue w')
      /\ processingRef w' = false /\ isProcessing w' = false.
Proof.
  intros [Hs1 Hs2] Hno. cbv zeta.
  assert (H1 : step Stop w
               = setPausedRef false (setProcessingRef false
                                       (setIsPaused false (setIsProcessing false w)))).
  { unfold step, handle, handleStop, commit.
    destruct w as [ck inp q ip ipd pr pdr tk uu al]. cbn in *. subst.
    destruct ip, ipd; reflexivity. }
  rewrite H1.
  repeat (split; [reflexivity|]).
  intros fs. apply run_firings_stopped; [reflexivity | reflexivity | exact Hno].
Qed.

Lemma stop_halts_intake_witness :
  synced Session.oneInFlight /\ noLaunchTimer (tasks Session.oneInFlight)
  /\ processingRef (step Stop Session.oneInFlight) = false.
Proof.
  assert (H1 : synced Session.oneInFlight) by (split; reflexivity).
  assert (H2 : noLaunchTimer (tasks Session.oneInFlight))
    by (split; intros [H|[]]; discriminate).
  split; [exact H1|]. split; [exact H2|].
  exact (proj1 (proj2 (proj2 (stop_halts_intake _ H1 H2)))).
Defined.

(* ================================================================== *)
(** ** Retry All *)

Lemma count_map_status (s : Status) (f : QueueItem -> QueueItem) (q : list QueueItem) :
  (forall y, status (f y) <> s) -> countStatus s (map f q) = 0.
Proof.
  intros H. unfold countStatus. induction q as [|y q IH]; cbn; [reflexivity|].
  destruct (Status_eqb (status (f y)) s) eqn:E; [|exact IH].
  apply Status_eqb_eq in E. now destruct (H y).
Qed.

(** X5: Retry All turns every failed record, and only those, into a
    [pending] record without error message, where it stands; afterwards no
    record is [error] and the [pending] ones are those that were [pending]
    or [error].  A second Retry All changes nothing in the queue.  The loop
    timer is armed exactly when [processingRef] is off. *)
Theorem retry_all_clears_every_error (w : World) :
  let w1 := step RetryAll w in
  Forall2 (fun before after =>
             (status before = error ->
              after = withErrorMsg None (withStatus pending before))
             /\ (status before <> error -> after = before))
          (queue w) (queue w1)
  /\ countStatus error (queue w1) = 0
  /\ countStatus pending (queue w1)
     = countStatus pending (queue w) + countStatus error (queue w)
  /\ queue (step RetryAll w1) = queue w1
  /\ tasks w1 = (if processingRef w then tasks w else tasks w ++ [RetryTimer]).
Proof.
  cbv zeta.
  assert (Hq : forall a, queue (step RetryAll a) = Updater.retryAll (queue a)).
  { intros a. unfold step, handle. rewrite commit_queue.
    unfold retryAllErrors. destruct (processingRef a); reflexivity. }
  rewrite !Hq. split; [|split; [|split; [|split]]].
  - apply Forall2_map_self. intros a _. unfold isError.
    destruct (Status_eqb (status a) error) eqn:E.
    + apply Status_eqb_eq in E. split; [reflexivity | contradiction].
    + split; [|reflexivity]. intros H. apply Status_eqb_eq in H. congruence.
  - apply count_map_status. intros y. unfold isError.
    destruct (Status_eqb (status y) error) eqn:E; cbn; [discriminate|].
    intros H. apply Status_eqb_eq in H. congruence.
  - unfold countStatus, Updater.retryAll.
    induction (queue w) as [|y q IH]; [reflexivity|].
    cbn [map filter]. unfold isError at 1.
    destruct y as [i p s u e t ed]; destruct s; cbn in *; lia.
  - unfold Updater.retryAll. rewrite map_map. apply map_ext. intros y.
    unfold isError. destruct y as [i p s u e t ed]; destruct s; reflexivity.
  - unfold step, handle. rewrite commit_tasks. unfold retryAllErrors.
    destruct (processingRef w); reflexivity.
Qed.

(* ================================================================== *)
(** ** Editing a prompt *)

Lemma editedOnly_map (f : QueueItem -> QueueItem) (q : list QueueItem) :
  (forall y, editedOnly y (f y)) -> Forall2 editedOnly q (map f q).
Proof. intros H. apply Forall2_map_self. intros a _. apply H. Qed.

Lemma editedOnly_refl (a : QueueItem) : editedOnly a a.
Proof. repeat split. Qed.

(** X6: opening, saving and cancelling the edit of a prompt never change
    the status, id, image, error message or creation time of any record,
    nor the outstanding tasks, nor the run state.  An edit can be opened
    only on a row that is [pending] or [error]; a save on an open row puts
    the new text, whatever it is, in every record with that id and closes
    its editor, also when the record has been claimed in the meantime. *)
Theorem edits_touch_only_prompt (e : Event) (w : World) :
  isEdit e = true ->
  let w1 := step e w in
  Forall2 editedOnly (queue w) (queue w1)
  /\ tasks w1 = tasks w
  /\ isProcessing w1 = isProcessing w /\ isPaused w1 = isPaused w
  /\ processingRef w1 = processingRef w /\ pausedRef w1 = pausedRef w
  /\ (forall i, e = StartEdit i -> showsEdit i (queue w) = false -> w1 = w)
  /\ (forall i p, e = SaveEdit i p -> showsEditor i (queue w) = true ->
                  Forall2 (fun before after =>
                             (id before = i ->
                              prompt after = p /\ isEditing after = Some false)
                             /\ (id before <> i -> after = before))
                          (queue w) (queue w1)).
Proof.
  intros He. cbv zeta.
  assert (Hstep : step e w = handle e w).
  { unfold step. apply commit_same_flags;
      destruct e as [s|s|now| | |i| |i|i p|i|c|k r]; try discriminate; cbn [handle];
      match goal with |- context [if ?b then _ else _] => destruct b end;
      reflexivity. }
  rewrite Hstep.
  destruct e as [s|s|now| | |i| |i|i p|i|c|k r]; try discriminate; cbn [handle].
  - destruct (showsEdit i (queue w)) eqn:E.
    + split; [cbn; apply editedOnly_map; intros y;
              destruct (Nat.eqb (id y) i); repeat split|].
      do 5 (split; [reflexivity|]). split; [congruence|discriminate].
    + split; [apply Forall2_refl_on, editedOnly_refl|].
      do 5 (split; [reflexivity|]). split; [reflexivity|discriminate].
  - destruct (showsEditor i (queue w)) eqn:E.
    + split; [cbn; apply editedOnly_map; intros y;
              destruct (Nat.eqb (id y) i); repeat split|].
      do 5 (split; [reflexivity|]). split; [discriminate|].
      intros i' p' H _. injection H as <- <-. cbn.
      apply Forall2_map_self. intros a _.
      destruct (Nat.eqb_spec (id a) i); split; intros; try contradiction; auto.
    + split; [apply Forall2_refl_on, editedOnly_refl|].
      do 5 (split; [reflexivity|]). split; [discriminate|].
      intros i' p' H. injection H as <- <-. congruence.
  - destruct (showsEditor i (queue w)) eqn:E.
    + split; [cbn; apply editedOnly_map; intros y;
              destruct (Nat.eqb (id y) i); repeat split|].
      do 5 (split; [reflexivity|]). split; discriminate.
    + split; [apply Forall2_refl_on, editedOnly_refl|].
      do 5 (split; [reflexivity|]). split; discriminate.
Qed.

Lemma edits_touch_only_prompt_witness :
  isEdit (StartEdit 0) = true
  /\ step (StartEdit 0) Session.oneDone = Session.oneDone
  /\ tasks (step (SaveEdit 1 "a wolf") Session.mixed) = tasks Session.mixed.
Proof.
  assert (H : forall i, isEdit (StartEdit i) = true) by reflexivity.
  split; [exact (H 0)|]. split.
  - exact (proj1 (proj2 (proj2 (proj2 (proj2 (proj2 (proj2
             (edits_touch_only_prompt (StartEdit 0) Session.oneDone (H 0))))))))
             0 eq_refl eq_refl).
  - exact (proj1 (proj2 (edits_touch_only_prompt (SaveEdit 1 "a wolf") Session.mixed
                                                  eq_refl))).
Defined.

(* ================================================================== *)
(** ** What START puts in the queue *)

Lemma trimStart_chars (c : ascii) (s : string) :
  In c (list_ascii_of_string (JsString.trimStart s)) -> In c (list_ascii_of_string s).
Proof.
  induction s as [|d r IH]; cbn; [auto|].
  destruct (JsString.isWhiteSpace d); cbn; auto.
Qed.

Lemma trimEnd_chars (c : ascii) (s : string) :
  In c (list_ascii_of_string (JsString.trimEnd s)) -> In c (list_ascii_of_string s).
Proof.
  induction s as [|d r IH]; cbn; [auto|].
  destruct (JsString.trimEnd r) as [|e r'].
  - destruct (JsString.isWhiteSpace d); cbn; intuition.
  - cbn in *. intuition.
Qed.

Lemma trimEnd_idempotent (s : string) :
  JsString.trimEnd (JsString.trimEnd s) = JsString.trimEnd s.
Proof.
  induction s as [|d r IH]; [reflexivity|]. cbn.
  destruct (JsString.trimEnd r) as [|e r'] eqn:E.
  - destruct (JsString.isWhiteSpace d) eqn:W; cbn; [reflexivity|].
    now rewrite W.
  - cbn [JsString.trimEnd]. cbn [JsString.trimEnd] in IH. now rewrite IH.
Qed.

(** A string starts clean when it is empty or starts with something else
    than white space; [trimStart] leaves such a string alone. *)
Lemma trimStart_clean (s : string) :
  JsString.trimStart (JsString.trimStart s) = JsString.trimStart s.
Proof.
  induction s as [|d r IH]; [reflexivity|]. cbn.
  destruct (JsString.isWhiteSpace d) eqn:W; [exact IH|].
  cbn. now rewrite W.
Qed.

Lemma trimEnd_keeps_clean (s : string) :
  JsString.trimStart s = s ->
  JsString.trimStart (JsString.trimEnd s) = JsString.trimEnd s.
Proof.
  destruct s as [|d r]; [reflexivity|]. cbn.
  destruct (JsString.isWhiteSpace d) eqn:W.
  - intros H. exfalso.
    assert (Hlen : forall u, String.length (JsString.trimStart u) <= String.length u).
    { induction u as [|e u IH]; cbn; [lia|].
      destruct (JsString.isWhiteSpace e); cbn; lia. }
    specialize (Hlen r). rewrite H in Hlen. cbn in Hlen. lia.
  - intros _. destruct (JsString.trimEnd r); cbn; now rewrite W.
Qed.

Lemma trim_idempotent (s : string) :
  JsString.trim (JsString.trim s) = JsString.trim s.
Proof.
  unfold JsString.trim.
  rewrite (trimEnd_keeps_clean (JsString.trimStart s) (trimStart_clean s)).
  apply trimEnd_idempotent.
Qed.

Lemma splitLines_no_newline (s : string) :
  Forall (fun line => ~ In JsString.newline (list_ascii_of_string line))
         (JsString.splitLines s).
Proof.
  induction s as [|c r IH]; cbn [JsString.splitLines].
  - constructor; [intros [] | constructor].
  - destruct (Ascii.eqb c JsString.newline) eqn:E.
    + constructor; [intros [] | exact IH].
    + destruct (JsString.splitLines r) as [|l ls].
      * constructor; [|constructor]. cbn. intros [H|[]].
        subst c. now rewrite Ascii.eqb_refl in E.
      * inversion IH; subst. constructor; [|assumption].
        cbn. intros [H|H]; [|contradiction].
        subst c. now rewrite Ascii.eqb_refl in E.
Qed.

Lemma newItems_shape (now : string) (lines : list string) :
  forall n,
    map prompt (newItems now n lines) = map JsString.trim lines
    /\ Forall (fun x => status x = pending /\ imageUrl x = None /\ errorMsg x = None
                        /\ timestamp x = now /\ isEditing x = None)
              (newItems now n lines).
Proof.
  induction lines as [|l ls IH]; intros n; cbn; [split; constructor|].
  destruct (IH (S n)) as [H1 H2]. split; [now rewrite H1|].
  constructor; [repeat split | exact H2].
Qed.

(** X7: when START accepts its input (non-empty cookie, at least one line
    that is not blank), it appends behind the untouched queue one record
    per non-blank line, in the order of the lines, with fresh consecutive
    ids.  Each new record is [pending], without image or error, stamped
    with the clock reading, and its prompt is the trimmed line: never
    empty, without white space at either end and without line break.  The
    input is cleared, the pause is lifted and the launch timer is armed. *)
Theorem start_enqueues_trimmed_lines (now : string) (w : World) :
  cookie w <> EmptyString ->
  promptLines (promptsInput w) <> [] ->
  let w1 := step (Start now) w in
  exists added,
    queue w1 = queue w ++ added
    /\ map prompt added = map JsString.trim (promptLines (promptsInput w))
    /\ map id added = seq (uuids w) (List.length added)
    /\ Forall (fun x =>
                 status x = pending /\ imageUrl x = None /\ errorMsg x = None
                 /\ timestamp x = now
                 /\ prompt x <> EmptyString
                 /\ JsString.trim (prompt x) = prompt x
                 /\ ~ In JsString.newline (list_ascii_of_string (prompt x)))
              added
    /\ promptsInput w1 = EmptyString
    /\ isPaused w1 = false /\ pausedRef w1 = false
    /\ tasks w1 = tasks w ++ [StartTimer].
Proof.
  intros Hc Hl. cbv zeta.
  set (lines := promptLines (promptsInput w)) in *.
  assert (Hh : handle (Start now) w
               = spawn StartTimer
                   (setPausedRef false
                      (setIsPaused false
                         (setPromptsInput EmptyString
                            (setUuids (uuids w + List.length lines)
                               (setQueue (fun prev => prev ++ newItems now (uuids w) lines)
                                         w)))))).
  { cbn [handle]. unfold handleStart. fold lines.
    destruct (cookie w); [contradiction|]. cbn [JsString.truthy negb].
    destruct lines; [contradiction|]. reflexivity. }
  exists (newItems now (uuids w) lines).
  destruct (newItems_shape now lines (uuids w)) as [Hp Hs].
  unfold step. rewrite commit_queue, commit_tasks, commit_isPaused, Hh.
  split; [reflexivity|]. split; [exact Hp|].
  split; [rewrite newItems_ids; f_equal;
          rewrite <- (length_map id), newItems_ids; now rewrite length_seq|].
  split.
  - apply Forall_forall. intros x Hx.
    rewrite Forall_forall in Hs. destruct (Hs x Hx) as [H1 [H2 [H3 [H4 _]]]].
    repeat (split; [assumption|]).
    assert (Hin : In (prompt x) (map JsString.trim lines))
      by (rewrite <- Hp; now apply in_map).
    apply in_map_iff in Hin. destruct Hin as [l [Hl1 Hl2]].
    unfold lines, promptLines in Hl2. apply filter_In in Hl2.
    destruct Hl2 as [Hl2 Hl3]. rewrite <- Hl1.
    split; [|split].
    + intros E. rewrite E in Hl3. discriminate.
    + apply trim_idempotent.
    + intros Hn. unfold JsString.trim in Hn.
      apply trimEnd_chars, trimStart_chars in Hn.
      pose proof (splitLines_no_newline (promptsInput w)) as Hall.
      rewrite Forall_forall in Hall. now apply (Hall l).
  - split; [|split; [reflexivity|split; [|reflexivity]]];
      unfold commit; cbn;
      destruct (Bool.eqb (isProcessing w) (isProcessing w)); cbn;
      destruct (Bool.eqb (isPaused w) false); reflexivity.
Qed.

Lemma start_enqueues_trimmed_lines_witness :
  let w := setPromptsInput (Session.twoLines "  a cat " "a dog") Session.oneDone in
  cookie w <> EmptyString /\ promptLines (promptsInput w) <> []
  /\ exists added,
      queue (step (Start "10:00:00") w) = queue w ++ added
      /\ map prompt added = map JsString.trim (promptLines (promptsInput w)).
Proof.
  cbv zeta.
  assert (H1 : cookie (setPromptsInput (Session.twoLines "  a cat " "a dog")
                                       Session.oneDone) <> EmptyString)
    by discriminate.
  assert (H2 : promptLines (promptsInput
                              (setPromptsInput (Session.twoLines "  a cat " "a dog")
                                               Session.oneDone)) <> [])
    by (vm_compute; discriminate).
  split; [exact H1|]. split; [exact H2|].
  destruct (start_enqueues_trimmed_lines "10:00:00" _ H1 H2) as [added [Ha [Hb _]]].
  exists added. split; [exact Ha | exact Hb].
Defined.

(* ================================================================== *)
(** ** From START to the drained queue *)

Lemma processNext_launch (a : World) :
  tasks a = [] -> processingRef a = true -> pausedRef a = false ->
  oneLoop (processNext a)
  /\ loopWeight (processNext a) <= 4 * countStatus pending (queue a) + 1.
Proof.
  intros Hidle Href Hpau. unfold processNext. rewrite Href, Hpau. cbn [negb].
  destruct (find isPending (queue a)) as [p|] eqn:Hf.
  - split.
    + right. cbn [spawn setTasks setQueue tasks processingRef pausedRef].
      rewrite Hidle. split; [exact Href|]. split; [exact Hpau|].
      right; left. eexists. reflexivity.
    + unfold loopWeight. cbn [spawn setTasks setQueue tasks queue].
      rewrite Hidle. cbn [app].
      pose proof (claim_fewer_pending (queue a) p Hf). lia.
  - apply find_pending_none in Hf. split.
    + right. cbn [spawn setTasks setQueue tasks processingRef pausedRef queue].
      rewrite Hidle. split; [exact Href|]. split; [exact Hpau|].
      left. split; [reflexivity | exact Hf].
    + unfold loopWeight. cbn [spawn setTasks tasks].
      rewrite Hidle. cbn [app]. lia.
Qed.

(** A commit changes nothing when the handler left the refs in step with
    the state. *)
Lemma commit_absorbed (before after : World) :
  processingRef after = isProcessing after ->
  pausedRef after = isPaused after ->
  commit before after = after.
Proof.
  intros H1 H2. destruct after as [ck inp q ip ipd pr pdr tk uu al].
  cbn in H1, H2. subst. unfold commit. cbn.
  destruct (Bool.eqb (isProcessing before) ip); cbn;
    destruct (Bool.eqb (isPaused before) ipd); reflexivity.
Qed.

Lemma count_pending_newItems (now : string) (lines : list string) (q : list QueueItem) :
  forall n,
    countStatus pending (q ++ newItems now n lines)
    = countStatus pending q + List.length lines.
Proof.
  intros n. unfold countStatus. rewrite filter_app, length_app. f_equal.
  revert n. induction lines as [|l ls IH]; intros n; cbn; [reflexivity|].
  now rewrite IH.
Qed.

(** X8: START on a component that is not running and has nothing
    outstanding, with a non-empty cookie and something to do (a non-blank
    line typed, or a record waiting), gets everything processed: for
    every behaviour of the services, once the launch timer and at most
    four tasks per waiting record plus one have run, no task is left,
    [isProcessing] is off again and no record is [pending].  This holds
    whether the component was paused or not. *)
Theorem start_on_idle_processes_everything
  (now : string) (env : Services) (w : World) (n : nat) :
  tasks w = [] -> processingRef w = false -> cookie w <> EmptyString ->
  promptLines (promptsInput w) <> [] \/ countStatus pending (queue w) <> 0 ->
  4 * (countStatus pending (queue w)
       + List.length (promptLines (promptsInput w))) + 2 <= n ->
  let w' := drain n env 0 (step (Start now) w) in
  tasks w' = [] /\ isProcessing w' = false
  /\ Forall (fun x => status x <> pending) (queue w').
Proof.
  intros Hidle Href Hc Hwork Hn. cbv zeta.
  set (lines := promptLines (promptsInput w)) in *.
  set (q1 := queue w ++ newItems now (uuids w) lines).
  assert (Hq1 : countStatus pending q1
                = countStatus pending (queue w) + List.length lines)
    by apply count_pending_newItems.
  assert (Hstart : exists w1,
             step (Start now) w = w1 /\ tasks w1 = [StartTimer]
             /\ processingRef w1 = false /\ pausedRef w1 = false
             /\ isPaused w1 = false /\ queue w1 = q1).
  { eexists. split; [reflexivity|].
    unfold step. rewrite commit_tasks, commit_queue.
    assert (Hflag : isProcessing (handle (Start now) w) = isProcessing w)
      by apply handleStart_flags.
    rewrite (commit_processingRef _ _ Hflag).
    cbn [handle]. unfold handleStart. fold lines.
    destruct (cookie w) as [|c0 cs]; [contradiction|]. cbn [JsString.truthy negb].
    assert (Hgo : Nat.eqb (List.length lines) 0 && negb (existsb isPending (queue w))
                  = false).
    { destruct lines as [|l ls]; [|reflexivity]. cbn [List.length Nat.eqb andb].
      destruct Hwork as [H|H]; [contradiction|].
      destruct (existsb isPending (queue w)) eqn:E; [reflexivity|]. exfalso.
      apply H, find_pending_none.
      destruct (find isPending (queue w)) as [p|] eqn:Hf; [|reflexivity].
      apply find_some in Hf. destruct Hf as [Hin Hp].
      assert (existsb isPending (queue w) = true)
        by (apply existsb_exists; eauto).
      congruence. }
    rewrite Hgo.
    assert (Hcommit : forall a : World,
               isPaused a = false -> pausedRef a = false ->
               pausedRef (commit w a) = false /\ isPaused (commit w a) = false).
    { intros a H1 H2. rewrite commit_isPaused. split; [|exact H1].
      unfold commit.
      destruct (Bool.eqb (isProcessing w) (isProcessing a)); cbn;
        rewrite ?H1; destruct (Bool.eqb (isPaused w) false); cbn; auto. }
    destruct lines as [|l ls] eqn:El.
    - cbn [List.length Nat.ltb Nat.leb].
      split; [cbn; now rewrite Hidle|]. split; [exact Href|].
      destruct (Hcommit (spawn StartTimer (setPausedRef false (setIsPaused false w))))
        as [H1 H2]; [reflexivity..|].
      split; [exact H1|]. split; [exact H2|].
      unfold q1. cbn. now rewrite app_nil_r.
    - cbn [List.length Nat.ltb Nat.leb].
      split; [cbn; now rewrite Hidle|]. split; [exact Href|].
      match goal with
      | |- pausedRef (commit w ?a) = false /\ _ =>
          destruct (Hcommit a) as [H1 H2]; [reflexivity..|]
      end.
      split; [exact H1|]. split; [exact H2|]. reflexivity. }
  destruct Hstart as [w1 [-> [Ht [Hp [Hpr [Hip Hq]]]]]].
  destruct n as [|n']; [lia|]. cbn [drain]. rewrite Ht. cbn [answer].
  assert (Hfire : step (Fire 0 Elapsed) w1
                  = processNext (setProcessingRef true
                                   (setIsProcessing true
                                      (setTasks (removeNth 0) w1)))).
  { rewrite (step_fire 0 Elapsed StartTimer w1 _ (f_equal (fun l => nth_error l 0) Ht)
                       eq_refl).
    unfold startTimer, processQueue. cbn [setTasks processingRef].
    rewrite Hp. cbn [negb].
    match goal with |- commit _ (processNext ?a) = _ =>
      destruct (processNext_flags a) as [F1 [F2 [F3 F4]]] end.
    apply commit_absorbed; [now rewrite F1, F3 | rewrite F2, F4; cbn; congruence]. }
  rewrite Hfire.
  match goal with |- context [processNext ?a] =>
    destruct (processNext_launch a) as [Hone Hw];
      [cbn; now rewrite Ht | reflexivity | exact Hpr |]
  end.
  cbn [setProcessingRef setIsProcessing setTasks queue] in Hw.
  rewrite Hq, Hq1 in Hw.
  match goal with |- context [drain n' env 1 ?a] =>
    destruct (oneLoop_drains env n' 1 a Hone) as [H1 [H2 H3]]; [lia|]
  end.
  split; [exact H1|]. split; [exact H2|]. now apply count_pending_zero.
Qed.

Lemma start_on_idle_processes_everything_witness :
  let w := setPromptsInput "a dog" Session.oneDone in
  tasks w = [] /\ processingRef w = false /\ cookie w <> EmptyString
  /\ tasks (drain 6 (Session.succeeding None ListThrow) 0 (step (Start "10:00:00") w)) = [].
Proof.
  cbv zeta.
  assert (Hc : cookie (setPromptsInput "a dog" Session.oneDone) <> EmptyString)
    by discriminate.
  assert (Hw : promptLines (promptsInput (setPromptsInput "a dog" Session.oneDone)) <> []
               \/ countStatus pending (queue (setPromptsInput "a dog" Session.oneDone)) <> 0)
    by (left; vm_compute; discriminate).
  assert (Hn : 4 * (countStatus pending (queue (setPromptsInput "a dog" Session.oneDone))
                    + List.length (promptLines
                                     (promptsInput (setPromptsInput "a dog" Session.oneDone))))
               + 2 <= 6)
    by (vm_compute; repeat constructor).
  split; [reflexivity|]. split; [reflexivity|]. split; [exact Hc|].
  exact (proj1 (start_on_idle_processes_everything
                  "10:00:00" (Session.succeeding None ListThrow)
                  (setPromptsInput "a dog" Session.oneDone) 6
                  eq_refl eq_refl Hc Hw Hn)).
Defined.

(* ================================================================== *)
(** ** Retry while paused *)

Lemma retried_is_pending (i : nat) (q : list QueueItem) :
  showsRetry i q = true -> existsb isPending (Updater.retryOne i q) = true.
Proof.
  unfold showsRetry. intros H. apply existsb_exists in H.
  destruct H as [x [Hx Hi]]. apply andb_prop in Hi. destruct Hi as [Hi _].
  apply existsb_exists.
  exists (withErrorMsg None (withStatus pending x)). split; [|reflexivity].
  unfold Updater.retryOne. apply in_map_iff. exists x. now rewrite Hi.
Qed.

(** X9: Retry on a failed row while the component is paused does not
    resume anything.  Its timer turns [isProcessing] and [processingRef]
    on, but the loop it calls returns at once because of the pause: the
    record waits as [pending] and no task is outstanding beyond those
    there were.  A START after that lifts the pause and appends the typed
    lines, but its timer finds [processingRef] on and launches nothing
    either: the component shows RUNNING with waiting records and no loop,
    until the user presses STOP. *)
Theorem retry_while_paused_stalls (i : nat) (now : string) (w : World) :
  synced w -> isPaused w = true -> isProcessing w = false ->
  showsRetry i (queue w) = true -> cookie w <> EmptyString ->
  let k := List.length (tasks w) in
  let w2 := run [RetryOne i; Fire k Elapsed] w in
  let w4 := run [Start now; Fire k Elapsed] w2 in
  isProcessing w2 = true /\ processingRef w2 = true /\ isPaused w2 = true
  /\ tasks w2 = tasks w
  /\ queue w2 = Updater.retryOne i (queue w)
  /\ existsb isPending (queue w2) = true
  /\ isPaused w4 = false /\ isProcessing w4 = true /\ processingRef w4 = true
  /\ tasks w4 = tasks w
  /\ queue w4 = queue w2 ++ newItems now (uuids w) (promptLines (promptsInput w)).
Proof.
  intros [Hs1 Hs2] Hpa Hpr Hshow Hc. cbv zeta.
  destruct w as [ck inp q ip ipd pr pdr tk uu al].
  cbn [processingRef isProcessing pausedRef isPaused queue cookie]
    in Hs1, Hs2, Hpa, Hpr, Hshow, Hc.
  subst ip ipd pr pdr. cbn [tasks queue uuids promptsInput].
  pose proof (retried_is_pending i q Hshow) as Hpend.
  set (w2 := mkWorld ck inp (Updater.retryOne i q) true true true true tk uu al).
  assert (H2 : run [RetryOne i; Fire (List.length tk) Elapsed]
                   (mkWorld ck inp q false true false true tk uu al) = w2).
  { unfold run. cbn [fold_left].
    assert (H1 : step (RetryOne i) (mkWorld ck inp q false true false true tk uu al)
                 = mkWorld ck inp (Updater.retryOne i q) false true false true
                           (tk ++ [RetryTimer]) uu al).
    { unfold step, handle. cbn [queue]. rewrite Hshow. reflexivity. }
    rewrite H1.
    erewrite step_fire;
      [|cbn [tasks]; apply nth_error_last | reflexivity].
    unfold retryTimer, processQueue.
    rewrite processNext_paused by reflexivity.
    unfold commit. cbn -[removeNth].
    unfold setProcessingRef, setIsProcessing, setTasks. cbn -[removeNth].
    rewrite removeNth_last. reflexivity. }
  rewrite H2.
  do 5 (split; [reflexivity|]). split; [exact Hpend|].
  assert (H4 : run [Start now; Fire (List.length tk) Elapsed] w2
               = mkWorld ck (if Nat.ltb 0 (List.length (promptLines inp))
                             then EmptyString else inp)
                         (Updater.retryOne i q ++ newItems now uu (promptLines inp))
                         true false true false tk
                         (if Nat.ltb 0 (List.length (promptLines inp))
                          then uu + List.length (promptLines inp) else uu) al).
  { unfold run. cbn [fold_left].
    assert (H3 : step (Start now) w2
                 = mkWorld ck (if Nat.ltb 0 (List.length (promptLines inp))
                               then EmptyString else inp)
                           (Updater.retryOne i q ++ newItems now uu (promptLines inp))
                           true false true false (tk ++ [StartTimer])
                           (if Nat.ltb 0 (List.length (promptLines inp))
                            then uu + List.length (promptLines inp) else uu) al).
    { unfold step, handle, handleStart, w2.
      cbn [cookie promptsInput queue uuids].
      destruct ck as [|c0 cs]; [contradiction|]. cbn [JsString.truthy negb].
      rewrite Hpend. cbn [negb]. rewrite andb_false_r.
      destruct (promptLines inp) as [|l ls]; cbn [List.length Nat.ltb Nat.leb newItems].
      - rewrite app_nil_r. reflexivity.
      - reflexivity. }
    rewrite H3.
    erewrite step_fire;
      [|cbn [tasks]; apply nth_error_last | reflexivity].
    unfold startTimer, commit. cbn -[removeNth].
    unfold setTasks. cbn -[removeNth].
    rewrite removeNth_last. reflexivity. }
  rewrite H4. repeat split.
Qed.

Lemma retry_while_paused_stalls_witness :
  let w := step Pause (setProcessingRef false (setIsProcessing false Session.mixed)) in
  synced w /\ isPaused w = true /\ showsRetry 1 (queue w) = true
  /\ tasks (run [Start "10:00:09"; Fire 0 Elapsed]
                (run [RetryOne 1; Fire 0 Elapsed] w)) = [].
Proof.
  cbv zeta.
  assert (Hs : synced (step Pause (setProcessingRef false
                                     (setIsProcessing false Session.mixed))))
    by (split; reflexivity).
  assert (Hc : cookie (step Pause (setProcessingRef false
                                     (setIsProcessing false Session.mixed)))
               <> EmptyString) by discriminate.
  split; [exact Hs|]. split; [reflexivity|]. split; [reflexivity|].
  exact (proj1 (proj2 (proj2 (proj2 (proj2 (proj2 (proj2 (proj2 (proj2 (proj2
           (retry_while_paused_stalls 1 "10:00:09"
              (step Pause (setProcessingRef false (setIsProcessing false Session.mixed)))
              Hs eq_refl eq_refl eq_refl Hc))))))))))).
Defined.

(* ================================================================== *)
(** ** Reference images *)

Lemma filterIndex_all {F : Type} (keep : nat -> bool) (l : list F) :
  forall i, (forall j, i <= j -> keep j = true) -> References.filterIndex keep i l = l.
Proof.
  induction l as [|a l IH]; intros i H; cbn; [reflexivity|].
  rewrite (H i) by lia. f_equal. apply IH. intros j Hj. apply H. lia.
Qed.

Lemma filterIndex_remove {F : Type} (l : list F) :
  forall i index,
    References.filterIndex (fun j => negb (Nat.eqb j (i + index))) i l
    = firstn index l ++ skipn (S index) l.
Proof.
  induction l as [|a l IH]; intros i index; cbn [References.filterIndex].
  - now destruct index.
  - destruct index as [|index].
    + rewrite Nat.add_0_r, Nat.eqb_refl. cbn.
      apply filterIndex_all. intros j Hj.
      destruct (Nat.eqb_spec j i); [lia | reflexivity].
    + destruct (Nat.eqb_spec i (i + S index)) as [E|E]; [lia|]. cbn.
      f_equal. replace (i + S index) with (S i + index) by lia. apply IH.
Qed.

(** X10: the page never holds more than three reference images, whatever
    is chosen and removed in whatever order.  Choosing files keeps the
    images already held in front and takes of the new ones only what fits;
    with three images held, or with no file list, it changes nothing.
    Removing takes out exactly the image at the index and keeps the order
    of the others; an index beyond the end removes nothing. *)
Theorem reference_images_at_most_three (F : Type) :
  (forall l : list (References.Action F),
      List.length (References.acts l []) <= 3)
  /\ (forall (prev fs : list F),
         List.length prev <= 3 ->
         References.handleReferenceImagesChange (Some fs) prev
         = prev ++ firstn (3 - List.length prev) fs)
  /\ (forall prev : list F, References.handleReferenceImagesChange None prev = prev)
  /\ (forall (index : nat) (prev : list F),
         References.removeReferenceImage index prev
         = firstn index prev ++ skipn (S index) prev)
  /\ (forall (index : nat) (prev : list F),
         List.length prev <= index ->
         References.removeReferenceImage index prev = prev).
Proof.
  assert (Hrem : forall (index : nat) (prev : list F),
             References.removeReferenceImage index prev
             = firstn index prev ++ skipn (S index) prev).
  { intros index prev. unfold References.removeReferenceImage.
    apply (filterIndex_remove prev 0 index). }
  split; [|split; [|split; [|split]]].
  - assert (H : forall (l : list (References.Action F)) (start : list F),
               List.length start <= 3 -> List.length (References.acts l start) <= 3).
    { induction l as [|a l IH]; intros start Hs; cbn; [exact Hs|].
      apply IH. destruct a as [[fs|]|index];
        cbn [References.act References.handleReferenceImagesChange].
      - rewrite length_firstn. lia.
      - exact Hs.
      - rewrite Hrem, length_app, length_firstn, length_skipn. lia. }
    intros l. apply H. cbn. lia.
  - intros prev fs Hle. cbn [References.handleReferenceImagesChange].
    rewrite firstn_app.
    rewrite firstn_all2 by exact Hle. reflexivity.
  - reflexivity.
  - exact Hrem.
  - intros index prev Hle. rewrite Hrem.
    rewrite firstn_all2 by exact Hle.
    rewrite skipn_all2 by lia. apply app_nil_r.
Qed.

Lemma reference_images_at_most_three_witness :
  References.handleReferenceImagesChange (Some [3; 4; 5]) [1; 2] = [1; 2; 3]
  /\ References.removeReferenceImage 7 [1; 2; 3] = [1; 2; 3].
Proof.
  split.
  - refine (proj1 (proj2 (reference_images_at_most_three nat)) [1; 2] [3; 4; 5] _).
    cbn. lia.
  - refine (proj2 (proj2 (proj2 (proj2 (reference_images_at_most_three nat))))
                  7 [1; 2; 3] _).
    cbn. lia.
Defined.

(* ================================================================== *)
(** ** The archive of all images *)

Lemma decimal_injective (n m : nat) : Zip.decimal n = Zip.decimal m -> n = m.
Proof.
  unfold Zip.decimal. intros H.
  apply (f_equal DecimalString.NilEmpty.uint_of_string) in H.
  rewrite !DecimalString.NilEmpty.usu in H. injection H as H.
  apply (f_equal Nat.of_uint) in H.
  now rewrite !DecimalNat.Unsigned.of_to in H.
Qed.

Lemma append_cancel_right (s : string) :
  forall a b : string, (a ++ s)%string = (b ++ s)%string -> a = b.
Proof.
  assert (Hlen : forall a : string,
             String.length (a ++ s)%string = String.length a + String.length s).
  { induction a as [|c a IH]; cbn; [reflexivity | now rewrite IH]. }
  induction a as [|c a IH]; intros [|d b] H; cbn in H.
  - reflexivity.
  - exfalso. apply (f_equal String.length) in H. cbn in H. rewrite Hlen in H. lia.
  - exfalso. apply (f_equal String.length) in H. cbn in H. rewrite Hlen in H. lia.
  - injection H as -> H. f_equal. now apply IH.
Qed.

(** Every entry stored from index [i] on is an image of [items], under the
    name of its position. *)
Lemma entries_positions {B : Type} (fetchBlob : string -> option B)
      (items : list QueueItem) :
  forall (i : nat) (entry : string * B),
    In entry (Zip.entries fetchBlob i items) ->
    exists k item u,
      k < List.length items /\ nth_error items k = Some item
      /\ fst entry = (Zip.decimal (i + k + 1) ++ ".png")%string
      /\ u = match imageUrl item with Some v => v | None => "undefined" end
      /\ fetchBlob u = Some (snd entry).
Proof.
  induction items as [|item rest IH]; intros i entry Hin; cbn in Hin; [contradiction|].
  assert (Hrest : In entry (Zip.entries fetchBlob (S i) rest) ->
                  exists k item0 u,
                    k < List.length (item :: rest)
                    /\ nth_error (item :: rest) k = Some item0
                    /\ fst entry = (Zip.decimal (i + k + 1) ++ ".png")%string
                    /\ u = match imageUrl item0 with Some v => v | None => "undefined" end
                    /\ fetchBlob u = Some (snd entry)).
  { intros H. destruct (IH (S i) entry H) as [k [it [u [Hk [Hn [Hf [Hu Hb]]]]]]].
    exists (S k), it, u. cbn. repeat split; auto; [lia|].
    rewrite Hf. do 2 f_equal. lia. }
  destruct (fetchBlob _) as [blob|] eqn:Hb; [|now apply Hrest].
  destruct Hin as [<-|Hin]; [|now apply Hrest].
  exists 0, item, (match imageUrl item with Some v => v | None => "undefined" end).
  cbn. repeat split; auto; [lia|]. do 2 f_equal. lia.
Qed.

Lemma entries_names_distinct {B : Type} (fetchBlob : string -> option B)
      (items : list QueueItem) :
  forall i, NoDup (map fst (Zip.entries fetchBlob i items)).
Proof.
  induction items as [|item rest IH]; intros i; cbn; [constructor|].
  destruct (fetchBlob _) as [blob|]; [|apply IH].
  cbn. constructor; [|apply IH].
  intros Hin. apply in_map_iff in Hin. destruct Hin as [entry [Hname Hin]].
  destruct (entries_positions fetchBlob rest (S i) entry Hin)
    as [k [it [u [_ [_ [Hf _]]]]]].
  rewrite Hf in Hname. apply append_cancel_right, decimal_injective in Hname. lia.
Qed.

Lemma entries_count {B : Type} (fetchBlob : string -> option B)
      (items : list QueueItem) :
  forall i, List.length (Zip.entries fetchBlob i items) <= List.length items.
Proof.
  induction items as [|item rest IH]; intros i; cbn; [lia|].
  destruct (fetchBlob _); cbn; specialize (IH (S i)); lia.
Qed.

(** X11: Download All builds an archive only when some record is [done]
    with a real image reference (not the placeholder "check_gallery");
    otherwise it only shows an alert.  In the archive every entry is an
    image that could be fetched, stored as [k.png] where [k] is the
    position of its record among the completed ones, counted from one; no
    two entries share a name, so none overwrites another; an image whose
    fetch fails is left out and the others keep their numbers. *)
Theorem archive_entries_are_the_fetched_images
  (B : Type) (fetchBlob : string -> option B) (libraryWorks : bool)
  (projectName : string) (q : list QueueItem) :
  match Zip.downloadAllAsZip fetchBlob libraryWorks projectName q with
  | Zip.Alerted msg =>
      (Zip.completedItems q = [] /\ msg = "No completed images to download")
      \/ (libraryWorks = false /\ msg = "Failed to create ZIP file")
  | Zip.Saved fileName files =>
      Zip.completedItems q <> []
      /\ fileName = Zip.archiveName projectName
      /\ NoDup (map fst files)
      /\ List.length files <= List.length (Zip.completedItems q)
      /\ forall entry, In entry files ->
           exists k item u,
             nth_error (Zip.completedItems q) k = Some item
             /\ fst entry = (Zip.decimal (k + 1) ++ ".png")%string
             /\ In item q /\ status item = done /\ imageUrl item = Some u
             /\ u <> EmptyString /\ u <> "check_gallery"
             /\ fetchBlob u = Some (snd entry)
  end.
Proof.
  unfold Zip.downloadAllAsZip.
  destruct (Zip.completedItems q) as [|c cs] eqn:Hc; cbn [List.length Nat.eqb].
  - left. split; reflexivity.
  - destruct libraryWorks; [|right; split; reflexivity].
    split; [discriminate|]. split; [reflexivity|].
    split; [apply entries_names_distinct|]. split; [apply entries_count|].
    intros entry Hin.
    destruct (entries_positions fetchBlob (c :: cs) 0 entry Hin)
      as [k [item [u [Hk [Hn [Hf [Hu Hb]]]]]]].
    assert (Hitem : In item (Zip.completedItems q))
      by (rewrite Hc; eapply nth_error_In; eauto).
    unfold Zip.completedItems in Hitem. apply filter_In in Hitem.
    destruct Hitem as [Hq Hhas]. unfold Zip.hasImage in Hhas.
    apply andb_prop in Hhas. destruct Hhas as [Hd Hu'].
    destruct (imageUrl item) as [v|] eqn:Hv; [|discriminate].
    apply andb_prop in Hu'. destruct Hu' as [Ht Hg]. subst u.
    exists k, item, v. split; [exact Hn|]. split; [exact Hf|].
    split; [exact Hq|]. split; [now apply Status_eqb_eq|]. split; [exact Hv|].
    split; [intros ->; discriminate|]. split; [|exact Hb].
    intros ->. now rewrite String.eqb_refl in Hg.
Qed.

Lemma sanitize_length (s : string) :
  String.length (Zip.sanitize s) = String.length s.
Proof. induction s as [|c r IH]; cbn; congruence. Qed.

(** X12: the archive is named after the project with every character
    other than an ASCII letter or digit replaced by an underscore, followed
    by ".zip": the stem has the length of the project name and consists of
    letters, digits and underscores only; a name of letters and digits is
    kept as it is, and sanitizing twice is sanitizing once. *)
Theorem archive_name_is_safe (projectName : string) :
  Zip.archiveName projectName = (Zip.sanitize projectName ++ ".zip")%string
  /\ String.length (Zip.sanitize projectName) = String.length projectName
  /\ Forall (fun c => Zip.isAlnum c = true \/ c = "_"%char)
            (list_ascii_of_string (Zip.sanitize projectName))
  /\ (Forall (fun c => Zip.isAlnum c = true) (list_ascii_of_string projectName) ->
      Zip.sanitize projectName = projectName)
  /\ Zip.sanitize (Zip.sanitize projectName) = Zip.sanitize projectName.
Proof.
  split; [reflexivity|]. split; [apply sanitize_length|]. split; [|split].
  - induction projectName as [|c r IH]; cbn; constructor; [|exact IH].
    destruct (Zip.isAlnum c) eqn:E; auto.
  - induction projectName as [|c r IH]; cbn; [reflexivity|].
    intros H. inversion H as [|? ? Hc Hr]; subst. rewrite Hc. f_equal. now apply IH.
  - induction projectName as [|c r IH]; cbn; [reflexivity|].
    rewrite IH. destruct (Zip.isAlnum c) eqn:E; [now rewrite E | reflexivity].
Qed.

Lemma archive_name_is_safe_witness :
  Forall (fun c => Zip.isAlnum c = true) (list_ascii_of_string "Whisk2024")
  /\ Zip.sanitize "Whisk2024" = "Whisk2024".
Proof.
  assert (H : Forall (fun c => Zip.isAlnum c = true) (list_ascii_of_string "Whisk2024"))
    by (repeat constructor).
  split; [exact H|].
  exact (proj1 (proj2 (proj2 (proj2 (archive_name_is_safe "Whisk2024")))) H).
Defined.

(* ================================================================== *)
(** ** The session check against the server *)

Lemma trim_empty : JsString.trim EmptyString = EmptyString.
Proof. reflexivity. Qed.

(** X13: what the page shows after "Check & Save", with this server.  A
    cookie of white space only is refused on the page and no request is
    sent.  Otherwise, if the server does not answer the page reports that
    it cannot connect; if it answers, the status is [connected] exactly
    when the Whisk session check succeeded, and [expired] exactly when it
    failed with a message that contains "401" or "Unauthorized"; every
    other failure, a blocked or unreachable account included, is shown as
    an error, and never as idle or still checking. *)
Theorem session_check_outcome
  (cookieText : string) (reachable : bool) (o : Server.WhiskSession) :
  let shown := Check.outcome cookieText reachable o in
  (JsString.trim cookieText = EmptyString ->
   Check.begin cookieText
   = (Check.mkSession Check.failed (Some "Please enter a cookie first"), false)
   /\ shown = Check.mkSession Check.failed (Some "Please enter a cookie first"))
  /\ (JsString.trim cookieText <> EmptyString ->
      snd (Check.begin cookieText) = true
      /\ (reachable = false ->
          shown = Check.mkSession Check.failed (Some "Cannot connect to server"))
      /\ (reachable = true ->
          (Check.state shown = Check.connected <-> o = Server.SessionOk)
          /\ (Check.state shown = Check.expired <->
              exists m, o = Server.SessionFails m
                        /\ (Server.includes "401" m = true
                            \/ Server.includes "Unauthorized" m = true))
          /\ (Check.state shown = Check.connected \/ Check.state shown = Check.expired
              \/ Check.state shown = Check.failed))).
Proof.
  cbv zeta. unfold Check.outcome, Check.begin. split.
  - intros ->. split; reflexivity.
  - intros Ht.
    destruct (JsString.trim cookieText) as [|c0 cs] eqn:Et; [contradiction|].
    cbn [JsString.truthy negb snd].
    split; [reflexivity|]. split; [intros ->; reflexivity|]. intros ->.
    assert (Hc : JsString.truthy cookieText = true).
    { destruct cookieText; [discriminate | reflexivity]. }
    unfold Server.validateEndpoint. rewrite Hc. cbn [negb].
    destruct o as [|m].
    + cbn. split; [tauto|]. split; [|auto].
      split; [discriminate|]. intros [m [H _]]. discriminate.
    + destruct (Server.includes "401" m || Server.includes "Unauthorized" m) eqn:E1.
      * cbn. split; [split; discriminate|]. split; [|auto].
        split; [|reflexivity]. intros _. exists m. split; [reflexivity|].
        now apply orb_prop.
      * assert (Hno : ~ (exists m0, Server.SessionFails m = Server.SessionFails m0
                                    /\ (Server.includes "401" m0 = true
                                        \/ Server.includes "Unauthorized" m0 = true))).
        { intros [m0 [H [H1|H1]]]; injection H as <-; rewrite H1 in E1;
            [discriminate|]. rewrite orb_true_r in E1. discriminate. }
        destruct (Server.includes "403" m || Server.includes "Forbidden" m);
          [|destruct (Server.includes "network" m || Server.includes "ECONNREFUSED" m)];
          cbn; (split; [split; discriminate|]); (split; [|auto]);
          (split; [discriminate | intros H; now destruct Hno]).
Qed.

Lemma session_check_outcome_witness :
  JsString.trim "c=1" <> EmptyString
  /\ snd (Check.begin "c=1") = true
  /\ JsString.trim "  " = EmptyString
  /\ Check.outcome "  " true Server.SessionOk
     = Check.mkSession Check.failed (Some "Please enter a cookie first").
Proof.
  assert (H1 : JsString.trim "c=1" <> EmptyString) by discriminate.
  assert (H2 : JsString.trim "  " = EmptyString) by reflexivity.
  split; [exact H1|]. split.
  - exact (proj1 (proj2 (session_check_outcome "c=1" true Server.SessionOk) H1)).
  - split; [exact H2|].
    exact (proj2 (proj1 (session_check_outcome "  " true Server.SessionOk) H2)).
Defined.

(* ================================================================== *)
(** ** The listing of images and the reconciliation *)

Lemma insertNewest_perm (x : Server.Listed) (l : list Server.Listed) :
  Permutation (x :: l) (Server.insertNewest x l).
Proof.
  induction l as [|y r IH]; cbn; [apply Permutation_refl|].
  destruct (Nat.leb (Server.listedTime y) (Server.listedTime x));
    [apply Permutation_refl|].
  eapply Permutation_trans; [apply perm_swap|]. now apply perm_skip.
Qed.

Lemma insertNewest_sorted (x : Server.Listed) (l : list Server.Listed) :
  StronglySorted (fun a b => Server.listedTime b <= Server.listedTime a) l ->
  StronglySorted (fun a b => Server.listedTime b <= Server.listedTime a)
                 (Server.insertNewest x l).
Proof.
  induction 1 as [|y r Hs IH Hall]; cbn; [repeat constructor|].
  destruct (Nat.leb_spec (Server.listedTime y) (Server.listedTime x)) as [Hle|Hlt].
  - constructor; [now constructor|].
    constructor; [exact Hle|].
    eapply Forall_impl; [|exact Hall]. cbn. intros a Ha. lia.
  - constructor; [exact IH|].
    apply (Permutation_Forall (insertNewest_perm x r)).
    constructor; [lia | exact Hall].
Qed.

Lemma sortNewestFirst_spec (l : list Server.Listed) :
  StronglySorted (fun a b => Server.listedTime b <= Server.listedTime a)
                 (Server.sortNewestFirst l)
  /\ Permutation l (Server.sortNewestFirst l).
Proof.
  induction l as [|x l [IH1 IH2]]; cbn; [split; constructor|].
  split; [now apply insertNewest_sorted|].
  eapply Permutation_trans; [apply perm_skip, IH2 | apply insertNewest_perm].
Qed.

(** X14: the listing of the server holds exactly the files of the output
    directory whose name ends in .png, .jpg, .jpeg or .webp, each once,
    with the URL under which the server serves it, ordered from the most
    recently modified to the oldest; a missing or unreadable directory
    gives the empty listing.  So the reference that the reconciliation of
    a finished job attaches (the first element of the listing) is that of
    an image file that no other image file is newer than. *)
Theorem listing_is_newest_first (dir : option (list Server.DirEntry)) :
  let l := Server.imagesEndpoint dir in
  StronglySorted (fun a b => Server.listedTime b <= Server.listedTime a) l
  /\ Permutation
       (map (fun f => (Server.listedName f, Server.listedTime f)) l)
       (map (fun f => (Server.entryName f, Server.mtime f))
            (filter (fun f => Server.isImageName (Server.entryName f))
                    (match dir with Some files => files | None => [] end)))
  /\ Forall (fun f => Server.isImageName (Server.listedName f) = true
                      /\ Server.listedUrl f = Server.outputUrl (Server.listedName f)) l
  /\ forall (itemId : nat) (w : World) (first : Server.Listed) (rest : list Server.Listed),
      l = first :: rest ->
      Forall (fun f => Server.listedTime f <= Server.listedTime first) l
      /\ queue (afterListing itemId (Server.asListOutcome l) w)
         = map (fun item =>
                  if Nat.eqb (id item) itemId && isDone item
                  then withImageUrl (Some (Server.outputUrl (Server.listedName first))) item
                  else item) (queue w).
Proof.
  cbv zeta. destruct dir as [files|]; cbn [Server.imagesEndpoint].
  2:{ split; [constructor|]. split; [constructor|]. split; [constructor|].
      intros ? ? ? ? H. discriminate. }
  set (images := filter (fun f => Server.isImageName (Server.entryName f)) files).
  set (raw := map (fun f => Server.mkListed (Server.outputUrl (Server.entryName f))
                                             (Server.entryName f) (Server.mtime f))
                  images).
  destruct (sortNewestFirst_spec raw) as [Hsorted Hperm].
  assert (Hall : Forall (fun f => Server.isImageName (Server.listedName f) = true
                                  /\ Server.listedUrl f
                                     = Server.outputUrl (Server.listedName f))
                        (Server.sortNewestFirst raw)).
  { apply (Permutation_Forall Hperm). unfold raw. apply Forall_forall.
    intros f Hf. apply in_map_iff in Hf. destruct Hf as [e [<- He]].
    unfold images in He. apply filter_In in He. cbn. tauto. }
  split; [exact Hsorted|]. split; [|split; [exact Hall|]].
  - apply Permutation_sym.
    eapply Permutation_trans; [|apply (Permutation_map _ Hperm)].
    unfold raw. rewrite map_map. cbn. apply Permutation_refl.
  - intros itemId w first rest Hl. rewrite Hl in *. split.
    + constructor; [lia|]. now inversion Hsorted.
    + cbn. inversion Hall as [|? ? [_ Hu] _]; subst. now rewrite Hu.
Qed.

Lemma listing_is_newest_first_witness :
  let dir := Some [Server.mkEntry "old.png" 5; Server.mkEntry "notes.txt" 9;
                   Server.mkEntry "new.jpg" 7] in
  map Server.listedName (Server.imagesEndpoint dir) = ["new.jpg"; "old.png"]
  /\ Forall (fun f => Server.listedTime f <= 7) (Server.imagesEndpoint dir).
Proof.
  cbv zeta. split; [reflexivity|].
  exact (proj1 (proj2 (proj2 (proj2
           (listing_is_newest_first
              (Some [Server.mkEntry "old.png" 5; Server.mkEntry "notes.txt" 9;
                     Server.mkEntry "new.jpg" 7])))) 0 (mount EmptyString)
           (Server.mkListed (Server.outputUrl "new.jpg") "new.jpg" 7)
           [Server.mkListed (Server.outputUrl "old.png") "old.png" 5] eq_refl)).
Defined.

(* ================================================================== *)
(** ** A generation against the server *)

Lemma outputUrl_truthy (f : string) : JsString.truthy (Server.outputUrl f) = true.
Proof. reflexivity. Qed.



(* ================================================================== *)
(** ** The order of the generation requests *)

Lemma find_split (q : list QueueItem) (p : QueueItem) :
  find isPending q = Some p ->
  exists pre post,
    q = pre ++ p :: post
    /\ Forall (fun y => status y <> pending) pre /\ status p = pending.
Proof.
  induction q as [|a q IH]; cbn; [discriminate|].
  destruct (isPending a) eqn:E.
  - intros H. injection H as <-. exists [], q.
    split; [reflexivity|]. split; [constructor | now apply isPending_true].
  - intros H. destruct (IH H) as [pre [post [-> [Hpre Hp]]]].
    exists (a :: pre), post. split; [reflexivity|].
    split; [constructor; [now apply isPending_false | exact Hpre] | exact Hp].
Qed.

Lemma filter_pending_none (l : list QueueItem) :
  Forall (fun y => status y <> pending) l -> filter isPending l = [].
Proof.
  induction 1 as [|y l Hy _ IH]; [reflexivity|].
  cbn. apply isPending_false in Hy. now rewrite Hy.
Qed.

Lemma filter_pending_claim (q : list QueueItem) (p : QueueItem) :
  NoDup (map id q) -> find isPending q = Some p ->
  filter isPending q = p :: filter isPending (Updater.claim p q).
Proof.
  intros Hnd Hf. destruct (find_split q p Hf) as [pre [post [-> [Hpre Hp]]]].
  rewrite (claim_in_place pre post p Hnd).
  rewrite !filter_app, (filter_pending_none pre Hpre). cbn.
  apply isPending_true in Hp. now rewrite Hp.
Qed.

Lemma filter_pending_map (f : QueueItem -> QueueItem) (q : list QueueItem) :
  (forall y, In y q -> status y = pending -> f y = y) ->
  (forall y, In y q -> status y <> pending -> status (f y) <> pending) ->
  filter isPending (map f q) = filter isPending q.
Proof.
  intros H1 H2. induction q as [|a q IH]; [reflexivity|]. cbn.
  rewrite IH; [|intros; apply H1; auto; now right
                |intros; apply H2; auto; now right].
  destruct (isPending a) eqn:E.
  - apply isPending_true in E. rewrite (H1 a) by (auto; now left).
    apply isPending_true in E. now rewrite E.
  - apply isPending_false in E. pose proof (H2 a (or_introl eq_refl) E) as E'.
    apply isPending_false in E'. now rewrite E'.
Qed.

(** One task of a loop in order: what it sends and what is left to send
    make up what was left to send. *)
Lemma loopInOrder_step (env : Services) (time : nat) (w : World) (t : Task) (ts : list Task) :
  loopInOrder w -> tasks w = t :: ts ->
  let w' := step (Fire 0 (answer env time t)) w in
  loopInOrder w'
  /\ match t with NextItem (Some item) => [item] | _ => [] end ++ toSend w'
     = toSend w.
Proof.
  intros [Hone [Hnd Hcur]] Ht. cbv zeta.
  destruct (oneLoop_step env time w t ts Hone Ht) as [Hone' _].
  set (w' := step (Fire 0 (answer env time t)) w) in *.
  assert (Hgoal : forall (tk' : list Task) (q' : list QueueItem),
             tasks w' = tk' -> queue w' = q' ->
             NoDup (map id q') ->
             (forall x, tk' = [NextItem (Some x)] \/ tk' = [Generating x] ->
                        forall y, In y q' -> id y = id x -> status y <> pending) ->
             match t with NextItem (Some item) => [item] | _ => [] end
             ++ match tk' with [NextItem (Some item)] => [item] | _ => [] end
             ++ filter isPending q' = toSend w ->
             loopInOrder w'
             /\ match t with NextItem (Some item) => [item] | _ => [] end ++ toSend w'
                = toSend w).
  { intros tk' q' H1 H2 H3 H4 H5. unfold loopInOrder, toSend at 1.
    rewrite H1, H2. auto. }
  destruct Hone as [[Hnil _]|[Href [Hpau Hshape]]]; [congruence|].
  destruct w as [ck inp q ip ipd pr pdr tk uu al].
  cbn [processingRef pausedRef tasks queue] in *. subst pr pdr tk.
  unfold toSend in Hgoal. cbn [tasks queue] in Hgoal.
  destruct Hshape as [[Hs Hc]|[[x Hs]|[[x Hs]|[[i Hs]|Hs]]]];
    injection Hs as -> ->; cbn [answer] in *.
  - (* drained *)
    eapply Hgoal;
      [unfold w', step, handle; now rewrite commit_tasks
      |unfold w', step, handle; now rewrite commit_queue
      |exact Hnd | intros x [H|H]; discriminate | reflexivity].
  - (* the request leaves *)
    eapply Hgoal;
      [unfold w', step, handle; now rewrite commit_tasks
      |unfold w', step, handle; now rewrite commit_queue
      |exact Hnd | | reflexivity].
    cbn. intros x0 [H|H]; [discriminate|]. injection H as <-.
    apply Hcur. now left.
  - (* the generation ends *)
    assert (Hx : forall y, In y q -> id y = id x -> status y <> pending)
      by (apply Hcur; now right).
    destruct (generate env time x) as [[|] u e|m] eqn:Hg;
      (eapply Hgoal;
       [unfold w', step, handle; rewrite commit_tasks; cbn; rewrite ?Hg; reflexivity
       |unfold w', step, handle; rewrite commit_queue; cbn; rewrite ?Hg; reflexivity
       |rewrite map_id_map; [exact Hnd|];
        intros y; destruct (Nat.eqb (id y) (id x)); reflexivity
       |intros x0 [H|H]; discriminate
       |cbn [app]; apply filter_pending_map; intros y Hy Hs;
        destruct (Nat.eqb_spec (id y) (id x)) as [E|E]; auto;
        try (exfalso; now apply (Hx y)); cbn; discriminate]).
  - (* the listing ends *)
    destruct (listImages env time) as [[|f fs]|] eqn:Hl;
      (eapply Hgoal;
       [unfold w', step, handle; rewrite commit_tasks; cbn; rewrite ?Hl; reflexivity
       |unfold w', step, handle; rewrite commit_queue; cbn; rewrite ?Hl; reflexivity
       | | intros x0 [H|H]; discriminate | ]);
      try exact Hnd; try reflexivity.
    + rewrite map_id_map; [exact Hnd|].
      intros y; destruct (_ && _); reflexivity.
    + cbn [app]. apply filter_pending_map; intros y Hy Hs.
      * unfold isDone. rewrite Hs. now rewrite andb_false_r.
      * destruct (_ && _); cbn; exact Hs.
  - (* the delay is over *)
    destruct (find isPending q) as [p|] eqn:Hf.
    + eapply Hgoal;
        [unfold w', step, handle; rewrite commit_tasks; cbn; unfold processNext;
         cbn; rewrite ?Hf; reflexivity
        |unfold w', step, handle; rewrite commit_queue; cbn; unfold processNext;
         cbn; rewrite ?Hf; reflexivity
        | | | ].
      * cbn. rewrite map_id_map; [exact Hnd|].
        intros y; destruct (Nat.eqb (id y) (id p)); reflexivity.
      * cbn. intros x0 [H|H]; [|discriminate]. injection H as <-.
        intros y Hy Hid. apply in_map_iff in Hy.
        destruct Hy as [z [<- _]].
        destruct (Nat.eqb_spec (id z) (id p)) as [E|E]; cbn; [discriminate|].
        cbn in Hid. destruct (Nat.eqb_spec (id z) (id p)); congruence.
      * cbn. symmetry. now apply filter_pending_claim.
    + eapply Hgoal;
        [unfold w', step, handle; rewrite commit_tasks; cbn; unfold processNext;
         cbn; rewrite ?Hf; reflexivity
        |unfold w', step, handle; rewrite commit_queue; cbn; unfold processNext;
         cbn; rewrite ?Hf; reflexivity
        |exact Hnd | intros x0 [H|H]; discriminate | reflexivity].
Qed.

(** A loop in order sends, until it has drained the queue, exactly what it
    had to send. *)
Lemma loopInOrder_requests (env : Services) (n : nat) :
  forall (time : nat) (w : World),
    loopInOrder w -> loopWeight w <= n ->
    requests n env time w = toSend w.
Proof.
  induction n as [|n IH]; intros time w Hin Hw.
  - destruct Hin as [[H|[_ [_ Hshape]]] _].
    + destruct H as [Ht [_ Hc]]. unfold toSend. rewrite Ht. cbn.
      symmetry. apply filter_pending_none. now apply count_pending_zero.
    + exfalso. unfold loopWeight in Hw.
      destruct Hshape as [[Hs _]|[[x Hs]|[[x Hs]|[[i Hs]|Hs]]]];
        rewrite Hs in Hw; lia.
  - cbn [requests]. destruct (tasks w) as [|t ts] eqn:Ht.
    + destruct Hin as [[H|[_ [_ Hshape]]] _].
      * destruct H as [_ [_ Hc]]. unfold toSend. rewrite Ht. cbn.
        symmetry. apply filter_pending_none. now apply count_pending_zero.
      * exfalso.
        destruct Hshape as [[Hs _]|[[x Hs]|[[x Hs]|[[i Hs]|Hs]]]]; congruence.
    + destruct (loopInOrder_step env time w t ts Hin Ht) as [Hin' Hsend].
      destruct (oneLoop_step env time w t ts (proj1 Hin) Ht) as [_ Hlt].
      rewrite IH by (auto; lia). exact Hsend.
Qed.

(** X16: a loop started on an idle component sends the generation
    requests for exactly the records that are [pending] at that moment, in
    queue order, each once and as it stands in the queue, whatever the
    services answer and whether the jobs succeed or fail (ids pairwise
    distinct, no user action in between). *)
Theorem requests_follow_queue_order
  (env : Services) (time : nat) (w : World) (n : nat) :
  tasks w = [] -> processingRef w = true -> pausedRef w = false ->
  NoDup (map id (queue w)) ->
  4 * countStatus pending (queue w) + 1 <= n ->
  requests n env time (processNext w) = filter isPending (queue w).
Proof.
  intros Hidle Href Hpau Hnd Hn.
  destruct (processNext_launch w Hidle Href Hpau) as [Hone Hw].
  assert (Hin : loopInOrder (processNext w) /\ toSend (processNext w)
                                              = filter isPending (queue w)).
  { revert Hone. unfold processNext. rewrite Href, Hpau. cbn [negb].
    destruct (find isPending (queue w)) as [p|] eqn:Hf; intros Hone.
    - split.
      + split; [exact Hone|]. cbn [spawn setTasks setQueue tasks queue].
        rewrite Hidle. split.
        * unfold Updater.claim. rewrite map_id_map; [exact Hnd|].
          intros y; destruct (Nat.eqb (id y) (id p)); reflexivity.
        * intros x0 [H|H]; [|discriminate]. injection H as <-.
          intros y Hy Hid. unfold Updater.claim in Hy. apply in_map_iff in Hy.
          destruct Hy as [z [<- _]].
          destruct (Nat.eqb_spec (id z) (id p)) as [E|E]; cbn; [discriminate|].
          cbn in Hid. destruct (Nat.eqb_spec (id z) (id p)); congruence.
      + unfold toSend. cbn [spawn setTasks setQueue tasks queue].
        rewrite Hidle. cbn [app]. symmetry. now apply filter_pending_claim.
    - split.
      + split; [exact Hone|]. cbn [spawn setTasks tasks queue].
        rewrite Hidle. split; [exact Hnd|]. intros x0 [H|H]; discriminate.
      + unfold toSend. cbn [spawn setTasks tasks queue]. now rewrite Hidle. }
  destruct Hin as [Hin Hsend]. rewrite <- Hsend.
  apply loopInOrder_requests; [exact Hin | lia].
Qed.

Lemma requests_follow_queue_order_witness :
  NoDup (map id (queue Session.mixed))
  /\ map prompt (requests 9 (Session.failingForDog None ListThrow true) 0
                          (processNext Session.mixed))
     = ["a fox"; "an owl"].
Proof.
  assert (Hnd : NoDup (map id (queue Session.mixed)))
    by (repeat constructor; cbn; intuition (try discriminate; try lia)).
  assert (Hn : 4 * countStatus pending (queue Session.mixed) + 1 <= 9)
    by (vm_compute; repeat constructor).
  split; [exact Hnd|].
  rewrite (requests_follow_queue_order
             (Session.failingForDog None ListThrow true) 0 Session.mixed 9
             eq_refl eq_refl eq_refl Hnd Hn).
  reflexivity.
Defined.
